(** * HVAC setpoint study: thermal energy simulation, scenario comparison
      and synthetic occupancy (Aida2.py)

    A shallow embedding of the numeric core of [Aida2.py]:
    - [calculate_energy_consumption], the lumped-capacitance loop;
    - the setpoint alignment and the energy columns of
      [HVACController.simulate_control], with the totals of
      [HVACController.plot_results];
    - the occupancy loop of [HVACController.load_data].

    NumPy arrays of dtype float64 are lists over a carrier [F] that comes
    with the arithmetic the code uses.  Statements about the shape of the
    computation are proved for every carrier; statements about order and
    sign are proved for exact rational arithmetic ([Q]); the binary64
    carrier ([PrimFloat]) is used to run the code on concrete inputs.

    In [Q] a quotient by zero is zero, where binary64 gives an infinity or
    a NaN: the statements over [Q] that depend on a quotient either assume
    the divisor positive or are evaluated where it is not zero. *)

From Stdlib Require Import QArith Qabs Lqa Floats.
From stdpp Require Import base list.

(** ** Python results *)

(** The exceptions the modelled code can raise: an index out of range
    (NumPy, [IndexError]) and a column whose length differs from the
    frame's (pandas, [ValueError]). *)
Inductive exn : Set := IndexError | ValueError.

Inductive result (A : Type) : Type :=
| Ok (a : A)
| Raise (e : exn).
Arguments Ok {A} a.
Arguments Raise {A} e.

Definition bind {A B} (r : result A) (k : A -> result B) : result B :=
  match r with
  | Ok a => k a
  | Raise e => Raise e
  end.

Declare Scope py_scope.
Delimit Scope py_scope with py.
Notation "'let!' x := r 'in' k" := (bind r (fun x => k))
  (at level 10, x name, r at level 100, k at level 200) : py_scope.
Local Open Scope py_scope.

(** [a[i]] for a non-negative index. *)
Definition getitem {A} (a : list A) (i : nat) : result A :=
  match a !! i with
  | Some x => Ok x
  | None => Raise IndexError
  end.

(** [a[i] = x]: in place when [i] is in range, [IndexError] otherwise. *)
Definition setitem {A} (a : list A) (i : nat) (x : A) : result (list A) :=
  if decide (i < length a) then Ok (<[i:=x]> a) else Raise IndexError.

(** [for i in idx: st = body st i], stopping at the first exception. *)
Fixpoint for_range {S} (body : S -> nat -> result S) (idx : list nat) (st : S)
  : result S :=
  match idx with
  | [] => Ok st
  | i :: idx' => let! st' := body st i in for_range body idx' st'
  end.

(** ** Arithmetic of the array elements *)

Class Arith (F : Type) : Type := {
  lit : Q -> F;            (* a numeric literal of the source *)
  add : F -> F -> F;
  sub : F -> F -> F;
  mul : F -> F -> F;
  div : F -> F -> F;
  absf : F -> F;           (* abs / np.abs *)
  gt0 : F -> bool          (* x > 0 *)
}.

Declare Scope num_scope.
Delimit Scope num_scope with num.
Infix "+" := add : num_scope.
Infix "-" := sub : num_scope.
Infix "*" := mul : num_scope.
Infix "/" := div : num_scope.

(** Exact rationals. *)
#[export] Instance Q_arith : Arith Q := {|
  lit q := q;
  add := Qplus; sub := Qminus; mul := Qmult; div := Qdiv;
  absf := Qabs;
  gt0 x := match (0 ?= x)%Q with Lt => true | _ => false end
|}.

(** IEEE 754 binary64, the element type of the arrays at run time.  A
    literal with small numerator and denominator is the correctly rounded
    quotient of the two, which is what parsing the decimal gives. *)
Definition float_of_Z (z : Z) : float :=
  match z with
  | Z0 => 0%float
  | Zpos _ => PrimFloat.of_uint63 (Uint63.of_Z z)
  | Zneg p => PrimFloat.opp (PrimFloat.of_uint63 (Uint63.of_Z (Zpos p)))
  end.

#[export] Instance float_arith : Arith float := {|
  lit q := PrimFloat.div (float_of_Z (Qnum q)) (float_of_Z (Zpos (Qden q)));
  add := PrimFloat.add; sub := PrimFloat.sub;
  mul := PrimFloat.mul; div := PrimFloat.div;
  absf := PrimFloat.abs;
  gt0 x := PrimFloat.ltb 0%float x
|}.

(** ** ThermalEnergySimulator: [calculate_energy_consumption] *)

(** The [building_params] dictionary, with the five keys the function
    reads. *)
Record building_params (F : Type) : Type := {
  heat_capacity : F;           (* kWh/degC *)
  heat_loss_coefficient : F;   (* kW/degC *)
  cop_heating : F;
  cop_cooling : F;
  time_step : F                (* hours *)
}.
Arguments heat_capacity {F} _.
Arguments heat_loss_coefficient {F} _.
Arguments cop_heating {F} _.
Arguments cop_cooling {F} _.
Arguments time_step {F} _.

(** The two arrays the loop updates. *)
Record sim_state (F : Type) : Type := {
  energy : list F;
  indoor_temp : list F
}.
Arguments energy {F} _.
Arguments indoor_temp {F} _.

Section Simulator.
Context {F : Type} `{Arith F}.
Local Open Scope num_scope.

Variable bp : building_params F.

(** Energy charged for bringing the zone from its natural temperature
    to the setpoint: the [if]/[else] of the loop body. *)
Definition energy_required (temp_change_required : F) : F :=
  if gt0 temp_change_required
  then heat_capacity bp * temp_change_required / cop_heating bp
  else heat_capacity bp * absf temp_change_required / cop_cooling bp.

(** One iteration of the loop, at index [i]. *)
Definition loop_body (setpoints outdoor_temps : list F)
    (st : sim_state F) (i : nat) : result (sim_state F) :=
  let! o := getitem outdoor_temps (i - 1)%nat in
  let! t := getitem (indoor_temp st) (i - 1)%nat in
  let temp_change_natural :=
    (o - t) * heat_loss_coefficient bp / heat_capacity bp * time_step bp in
  let! t' := getitem (indoor_temp st) (i - 1)%nat in
  let indoor_temp_natural := t' + temp_change_natural in
  let! s := getitem setpoints i in
  let temp_change_required := s - indoor_temp_natural in
  let! energy' := setitem (energy st) i (energy_required temp_change_required) in
  let! s' := getitem setpoints i in
  let! indoor' := setitem (indoor_temp st) i s' in
  Ok {| energy := energy'; indoor_temp := indoor' |}.

(** The arrays before the loop: [np.zeros_like(setpoints)] and
    [np.full_like(setpoints, setpoints[0])]. *)
Definition init_state (setpoints : list F) : result (sim_state F) :=
  let energy0 := replicate (length setpoints) (lit 0) in
  let! s0 := getitem setpoints 0 in
  Ok {| energy := energy0;
        indoor_temp := replicate (length setpoints) s0 |}.

(** The whole run, keeping both arrays. *)
Definition simulate (setpoints outdoor_temps : list F)
  : result (sim_state F) :=
  let! st0 := init_state setpoints in
  for_range (loop_body setpoints outdoor_temps)
            (seq 1 (length setpoints - 1)) st0.

Definition calculate_energy_consumption (setpoints outdoor_temps : list F)
  : result (list F) :=
  let! st := simulate setpoints outdoor_temps in
  Ok (energy st).

(** *** The stateless form of the same computation

    Written from the description of the loop as a map over adjacent
    elements, to be compared with [calculate_energy_consumption]:
    element [0] is zero, element [i] depends on [setpoints[i-1]],
    [setpoints[i]] and [outdoor_temps[i-1]] only. *)
Definition step_energy (s_prev s o_prev : F) : F :=
  let drift :=
    (o_prev - s_prev) * heat_loss_coefficient bp / heat_capacity bp
    * time_step bp in
  let indoor_natural := s_prev + drift in
  let delta := s - indoor_natural in
  if gt0 delta
  then heat_capacity bp * delta / cop_heating bp
  else heat_capacity bp * absf delta / cop_cooling bp.

Definition energy_vectorized (setpoints outdoor_temps : list F) : list F :=
  match setpoints with
  | [] => []
  | _ :: later =>
      lit 0 :: zip_with (fun adj o_prev => step_energy adj.1 adj.2 o_prev)
                        (zip setpoints later) outdoor_temps
  end.

(** What holds of the two arrays when the loop is about to run index
    [i]: every index below [i] is final. *)
Definition loop_inv (setpoints outdoor_temps : list F)
    (i : nat) (st : sim_state F) : Prop :=
  length (energy st) = length setpoints /\
  length (indoor_temp st) = length setpoints /\
  (forall j, (j < i)%nat -> indoor_temp st !! j = setpoints !! j) /\
  (forall j, (j < i)%nat ->
     energy st !! j = energy_vectorized setpoints outdoor_temps !! j).

End Simulator.

(** ** ScenarioComparator: [simulate_control] and [plot_results]

    The inputs are the outdoor-temperature column of the selected window
    and the two prediction arrays; the selection of the window and the
    networks that predict are outside this model. *)

Record simulation_data (F : Type) : Type := {
  outdoor_temp : list F;
  mlp_setpoint : list F;
  lstm_setpoint : list F;
  mlp_energy : list F;
  lstm_energy : list F;
  baseline_energy : list F
}.
Arguments outdoor_temp {F} _.
Arguments mlp_setpoint {F} _.
Arguments lstm_setpoint {F} _.
Arguments mlp_energy {F} _.
Arguments lstm_energy {F} _.
Arguments baseline_energy {F} _.

(** The dictionary [plot_results] returns, and the two percentages it
    prints (before they are formatted). *)
Record energy_results (F : Type) : Type := {
  mlp_total : F;
  lstm_total : F;
  baseline_total : F;
  mlp_savings_pct : F;
  lstm_savings_pct : F
}.
Arguments mlp_total {F} _.
Arguments lstm_total {F} _.
Arguments baseline_total {F} _.
Arguments mlp_savings_pct {F} _.
Arguments lstm_savings_pct {F} _.

Section Comparator.
Context {F : Type} `{Arith F}.
Local Open Scope num_scope.

(** [simulation_data[name] = values] for an array: pandas refuses a
    length other than the frame's. *)
Definition set_column (n : nat) (values : list F) : result (list F) :=
  if decide (length values = n) then Ok values else Raise ValueError.

(** The [if]/[else] that adjusts the LSTM predictions to [n] rows. *)
Definition lstm_adjusted (n : nat) (lstm_predictions : list F)
  : result (list F) :=
  if decide (length lstm_predictions < n)%nat then
    let! first := getitem lstm_predictions 0 in
    let padding := replicate (n - length lstm_predictions) first in
    Ok (padding ++ lstm_predictions)
  else Ok (take n lstm_predictions).

(** [np.abs(setpoint - outdoor_temp) * 0.1], row by row. *)
Definition proportional_energy (setpoint outdoor : list F) : list F :=
  zip_with (fun s o => absf (s - o) * lit (1 # 10)) setpoint outdoor.

(** [np.abs(22 - outdoor_temp) * 0.1]. *)
Definition constant_energy (outdoor : list F) : list F :=
  (fun o => absf (lit 22 - o) * lit (1 # 10)) <$> outdoor.

Definition simulate_control (outdoor mlp_predictions lstm_predictions : list F)
  : result (simulation_data F) :=
  let n := length outdoor in
  let! mlp := set_column n mlp_predictions in
  let! adjusted := lstm_adjusted n lstm_predictions in
  let! lstm := set_column n adjusted in
  Ok {| outdoor_temp := outdoor;
        mlp_setpoint := mlp;
        lstm_setpoint := lstm;
        mlp_energy := proportional_energy mlp outdoor;
        lstm_energy := proportional_energy lstm outdoor;
        baseline_energy := constant_energy outdoor |}.

(** [Series.sum()], as a running sum from zero. *)
Definition series_sum (column : list F) : F := foldl add (lit 0) column.

Definition savings_pct (model_total base_total : F) : F :=
  (lit 1 - model_total / base_total) * lit 100.

Definition plot_results (sd : simulation_data F) : energy_results F :=
  let mlp := series_sum (mlp_energy sd) in
  let lstm := series_sum (lstm_energy sd) in
  let base := series_sum (baseline_energy sd) in
  {| mlp_total := mlp;
     lstm_total := lstm;
     baseline_total := base;
     mlp_savings_pct := savings_pct mlp base;
     lstm_savings_pct := savings_pct lstm base |}.

End Comparator.

(** ** SyntheticDatasetGenerator: the occupancy loop of [load_data] *)

(** What the loop reads of a timestamp: Monday is day 0. *)
Record timestamp : Set := {
  dayofweek : nat;
  hour : nat
}.

(** The global NumPy generator, as far as [np.random.random()] goes: a
    sequence of draws and the position of the next one. *)
Record rng (F : Type) : Type := {
  draws : nat -> F;
  pos : nat
}.
Arguments draws {F} _ _.
Arguments pos {F} _.

Definition random {F} (r : rng F) : F * rng F :=
  (draws r (pos r), {| draws := draws r; pos := S (pos r) |}).

(** The hourly index from 2024-01-01 00:00 to 2024-12-31 23:00: 366 days,
    the first one a Monday. *)
Definition n_samples : nat := 366 * 24.

Definition timestamps : list timestamp :=
  (fun i => {| dayofweek := (i / 24) mod 7; hour := i mod 24 |})
    <$> seq 0 n_samples.

Section Generator.
Context {F : Type} `{Arith F}.
Local Open Scope num_scope.

(** The value stored for one timestamp, given the draw [u]. *)
Definition occupancy_value (t : timestamp) (u : F) : F :=
  if decide (dayofweek t < 5)%nat then
    if decide (8 <= hour t < 18)%nat then lit (7 # 10) + lit (3 # 10) * u
    else if decide (7 <= hour t < 8 \/ 18 <= hour t < 19)%nat
         then lit (3 # 10) + lit (3 # 10) * u
         else lit (1 # 10) * u
  else lit (2 # 10) * u.

(** [for i, timestamp in enumerate(...)], from index [i] on: one draw
    and one store per timestamp. *)
Fixpoint occupancy_loop (i : nat) (stamps : list timestamp)
    (st : list F * rng F) : result (list F * rng F) :=
  match stamps with
  | [] => Ok st
  | t :: stamps' =>
      let (u, r') := random st.2 in
      let! occupancy := setitem st.1 i (occupancy_value t u) in
      occupancy_loop (S i) stamps' (occupancy, r')
  end.

(** [occupancy = np.zeros(n_samples)], then the loop. *)
Definition generate_occupancy (stamps : list timestamp) (r : rng F)
  : result (list F * rng F) :=
  occupancy_loop 0 stamps (replicate (length stamps) (lit 0), r).

Definition load_data_occupancy (r : rng F) : result (list F) :=
  let! st := generate_occupancy timestamps r in
  Ok st.1.

End Generator.

(** ** HVACNeuralNetwork: the windows of [preprocess_data], [predict]
       and [evaluate]

    The scalers and the Keras networks are library objects.  The arrays
    below are the scaled ones, [R] is the type of a feature row, and a
    network is a function from its input sample to the prediction for that
    sample (inverse scaling included). *)

Inductive model_type : Set := MLP | LSTM.

(** [a[lo:hi]] for non-negative bounds. *)
Definition slice {A} (a : list A) (lo hi : nat) : list A :=
  take (hi - lo) (drop lo a).

(** [a[start:]]; a negative [start] counts from the end. *)
Definition slice_from {A} (a : list A) (start : Z) : list A :=
  if decide (start < 0)%Z
  then drop (Z.to_nat (Z.of_nat (length a) + start)) a
  else drop (Z.to_nat start) a.

(** What [preprocess_data] returns: the two arrays as they are, or the
    sequences and their targets. *)
Inductive preprocessed (R F : Type) : Type :=
| Flat (X : list R) (y : list F)
| Sequences (X_seq : list (list R)) (y_seq : list F).
Arguments Flat {R F} X y.
Arguments Sequences {R F} X_seq y_seq.

Section Windows.
Context {R F : Type}.

(** The body of the loop of [preprocess_data]: two appends. *)
Definition append_training_pair (X_scaled : list R) (y_scaled : list F)
    (sequence_length : nat) (acc : list (list R) * list F) (i : nat)
  : result (list (list R) * list F) :=
  let X_seq := acc.1 ++ [slice X_scaled i (i + sequence_length)] in
  let! target := getitem y_scaled (i + sequence_length) in
  Ok (X_seq, acc.2 ++ [target]).

(** [sequence_length] is [None] or a non-negative integer; [None] and [0]
    are both false in the test that guards the loop. *)
Definition preprocess_data (self_model_type : model_type)
    (X_scaled : list R) (y_scaled : list F) (sequence_length : option nat)
  : result (preprocessed R F) :=
  match self_model_type, sequence_length with
  | LSTM, Some (S k) =>
      let! acc :=
        for_range (append_training_pair X_scaled y_scaled (S k))
                  (seq 0 (length X_scaled - S k)) ([], []) in
      Ok (Sequences acc.1 acc.2)
  | _, _ => Ok (Flat X_scaled y_scaled)
  end.

(** The loop of [predict] for the LSTM:
    [range(len(X_scaled) - sequence_length + 1)] is empty when the
    difference is negative. *)
Definition prediction_windows (X_scaled : list R) (sequence_length : nat)
  : list (list R) :=
  foldl (fun X_seq i => X_seq ++ [slice X_scaled i (i + sequence_length)])
        [] (seq 0 (S (length X_scaled) - sequence_length)).

(** The adjustment of [y_test] in [evaluate]. *)
Definition evaluate_actual (self_model_type : model_type)
    (y_pred y_test : list F) (sequence_length : nat) : list F :=
  match self_model_type with
  | MLP => y_test
  | LSTM =>
      let y_test1 := slice_from y_test (Z.of_nat sequence_length - 1) in
      if decide (length y_pred < length y_test1)%nat
      then take (length y_pred) y_test1
      else y_test1
  end.

(** The ['actual'] and ['predictions'] entries of the dictionary
    [evaluate] returns; the metrics in between refuse two arrays of
    different lengths. *)
Definition evaluate (self_model_type : model_type)
    (y_pred y_test : list F) (sequence_length : nat)
  : result (list F * list F) :=
  let actual := evaluate_actual self_model_type y_pred y_test sequence_length in
  if decide (length actual = length y_pred)
  then Ok (actual, y_pred)
  else Raise ValueError.

End Windows.

(** ** HVACController: from the data frame to [simulate_control] *)

(** [data[start_idx:start_idx + 24 * days]]. *)
Definition select_window {A} (data : list A) (start_idx days : nat) : list A :=
  slice data start_idx (start_idx + 24 * days).

Section Controller.
Context {R F : Type} `{Arith F}.

(** The two trained networks, each with its scalers: one prediction per
    row for the MLP, one per window of rows for the LSTM. *)
Variable mlp_model : R -> F.
Variable lstm_model : list R -> F.

(** [simulate_control] from the selected start on, for a window that
    holds at least one sequence: the features and the outdoor column are
    cut to the window, both networks predict, and the columns are built. *)
Definition simulate_control_from (outdoor_column : list F) (X : list R)
    (start_idx days : nat) : result (simulation_data F) :=
  let X_sim := select_window X start_idx days in
  let mlp_predictions := mlp_model <$> X_sim in
  let lstm_predictions := lstm_model <$> prediction_windows X_sim 24 in
  simulate_control (select_window outdoor_column start_idx days)
                   mlp_predictions lstm_predictions.

End Controller.

(** The two models of the comparison, taken one at a time: what each
    predicts for the window (the two calls of [predict] in
    [simulate_control]) and the setpoint column it ends in. *)
Section ControllerModels.
Context {R F : Type}.
Variable mlp_model : R -> F.
Variable lstm_model : list R -> F.

Definition model_predictions (m : model_type) (X_sim : list R) : list F :=
  match m with
  | MLP => mlp_model <$> X_sim
  | LSTM => lstm_model <$> prediction_windows X_sim 24
  end.

Definition model_setpoint (m : model_type) (sd : simulation_data F)
  : list F :=
  match m with
  | MLP => mlp_setpoint sd
  | LSTM => lstm_setpoint sd
  end.

End ControllerModels.

(** ** SyntheticDatasetGenerator: the setpoint label of [load_data] *)

Section Label.
Context {F : Type} `{Arith F}.
Local Open Scope num_scope.

(** One element of
    [21.0 + 0.01 * (outdoor_temp - 20.0) - 0.5 * occupancy + 0.2 * randn],
    for the normal draw [z]. *)
Definition optimal_setpoint_at (temp occ z : F) : F :=
  lit 21 + lit (1 # 100) * (temp - lit 20) - lit (5 # 10) * occ
  + lit (2 # 10) * z.

(** The whole column, over arrays of one length. *)
Definition optimal_setpoint (outdoor occupancy noise : list F) : list F :=
  zip_with (fun pair z => optimal_setpoint_at pair.1 pair.2 z)
           (zip outdoor occupancy) noise.

End Label.

(** ** Inputs used in the examples below *)

(** The parameters of the worked scenario: capacity 10, loss 2, COP 3 and
    4, one-hour steps. *)
Definition scenario_params {F : Type} `{Arith F} : building_params F := {|
  heat_capacity := lit 10;
  heat_loss_coefficient := lit 2;
  cop_heating := lit 3;
  cop_cooling := lit 4;
  time_step := lit 1
|}.

(** The same building with a negative loss coefficient. *)
Definition nonpositive_params {F : Type} `{Arith F} : building_params F := {|
  heat_capacity := lit 10;
  heat_loss_coefficient := lit (-2);
  cop_heating := lit 3;
  cop_cooling := lit 4;
  time_step := lit 1
|}.

(** A generator whose every draw is one half. *)
Definition half_rng : rng Q := {| draws := fun _ => 1 # 2; pos := 0 |}.

(** * Properties *)

(** ** Indexing *)

Lemma getitem_Some {A} (a : list A) i x :
  a !! i = Some x -> getitem a i = Ok x.
Proof. unfold getitem. by intros ->. Qed.

Lemma getitem_None {A} (a : list A) i :
  a !! i = None -> getitem a i = Raise IndexError.
Proof. unfold getitem. by intros ->. Qed.

Lemma setitem_lt {A} (a : list A) i x :
  (i < length a)%nat -> setitem a i x = Ok (<[i:=x]> a).
Proof. unfold setitem. intros. by rewrite decide_True. Qed.

Lemma for_range_app {S} (body : S -> nat -> result S) idx1 idx2 st :
  for_range body (idx1 ++ idx2) st =
  let! st' := for_range body idx1 st in for_range body idx2 st'.
Proof.
  revert st. induction idx1 as [|i idx1 IH]; intros st; [done|].
  cbn [app for_range]. destruct (body st i); cbn [bind]; [apply IH|done].
Qed.

(** ** The loop of [calculate_energy_consumption] *)

Section SimulatorFacts.
Context {F : Type} `{Arith F}.
Local Open Scope num_scope.
Variable bp : building_params F.
Variables setpoints outdoor_temps : list F.

Lemma energy_required_step (a b o : F) :
  energy_required bp
    (b - (a + (o - a) * heat_loss_coefficient bp / heat_capacity bp
              * time_step bp))
  = step_energy bp a b o.
Proof. reflexivity. Qed.

Lemma energy_vectorized_length :
  (length setpoints - 1 <= length outdoor_temps)%nat ->
  length (energy_vectorized bp setpoints outdoor_temps) = length setpoints.
Proof.
  unfold energy_vectorized. destruct setpoints as [|s0 later]; [done|].
  intros Hlen. cbn [length] in *.
  rewrite length_zip_with, length_zip. cbn [length]. lia.
Qed.

Lemma energy_vectorized_0 s0 :
  setpoints !! 0%nat = Some s0 ->
  energy_vectorized bp setpoints outdoor_temps !! 0%nat = Some (lit 0).
Proof. unfold energy_vectorized. by destruct setpoints. Qed.

Lemma energy_vectorized_S j a b o :
  setpoints !! j = Some a -> setpoints !! S j = Some b ->
  outdoor_temps !! j = Some o ->
  energy_vectorized bp setpoints outdoor_temps !! S j
  = Some (step_energy bp a b o).
Proof.
  unfold energy_vectorized. destruct setpoints as [|s0 later]; [done|].
  intros Ha Hb Ho. change (later !! j = Some b) in Hb.
  change (zip_with (fun adj o_prev => step_energy bp adj.1 adj.2 o_prev)
            (zip (s0 :: later) later) outdoor_temps !! j
          = Some (step_energy bp a b o)).
  rewrite lookup_zip_with, (lookup_zip_with pair), Ha.
  cbn [mbind option_bind]. rewrite Hb. cbn [mbind option_bind].
  by rewrite Ho.
Qed.

(** Every element past the first is a [step_energy] of adjacent inputs. *)
Lemma energy_vectorized_S_inv j x :
  energy_vectorized bp setpoints outdoor_temps !! S j = Some x ->
  exists a b o,
    setpoints !! j = Some a /\ setpoints !! S j = Some b /\
    outdoor_temps !! j = Some o /\ x = step_energy bp a b o.
Proof.
  unfold energy_vectorized. destruct setpoints as [|s0 later]; [done|].
  intros Hx.
  change (zip_with (fun adj o_prev => step_energy bp adj.1 adj.2 o_prev)
            (zip (s0 :: later) later) outdoor_temps !! j = Some x) in Hx.
  apply lookup_zip_with_Some in Hx as ([a b] & o & -> & Hab & Ho).
  apply lookup_zip_with_Some in Hab as (a' & b' & [= <- <-] & Ha & Hb).
  by exists a, b, o.
Qed.

Lemma loop_body_inv i st :
  (1 <= i)%nat -> (i < length setpoints)%nat ->
  (i <= length outdoor_temps)%nat ->
  loop_inv bp setpoints outdoor_temps i st ->
  exists st', loop_body bp setpoints outdoor_temps st i = Ok st' /\
              loop_inv bp setpoints outdoor_temps (S i) st'.
Proof.
  intros Hi Hn Ho' (Hle & Hli & Hind & Hen).
  destruct i as [|k]; [lia|].
  destruct (lookup_lt_is_Some_2 outdoor_temps k) as [o Ho]; [lia|].
  destruct (lookup_lt_is_Some_2 setpoints k) as [a Ha]; [lia|].
  destruct (lookup_lt_is_Some_2 setpoints (S k)) as [b Hb]; [lia|].
  assert (Hta : indoor_temp st !! k = Some a) by (rewrite Hind; [done|lia]).
  unfold loop_body. replace (S k - 1)%nat with k by lia.
  rewrite (getitem_Some _ _ _ Ho), (getitem_Some _ _ _ Hta),
    (getitem_Some _ _ _ Hb). cbn [bind].
  rewrite !setitem_lt by lia. cbn [bind].
  eexists; split; [reflexivity|].
  repeat split; cbn [energy indoor_temp].
  - by rewrite length_insert.
  - by rewrite length_insert.
  - intros j Hj. destruct (decide (j = S k)) as [->|Hne].
    + by rewrite list_lookup_insert_eq by lia.
    + rewrite list_lookup_insert_ne by done. apply Hind. lia.
  - intros j Hj. destruct (decide (j = S k)) as [->|Hne].
    + rewrite list_lookup_insert_eq by lia.
      by rewrite (energy_vectorized_S k a b o), energy_required_step.
    + rewrite list_lookup_insert_ne by done. apply Hen. lia.
Qed.

(** Past the end of [outdoor_temps] the body stops at its first read. *)
Lemma loop_body_raise i st :
  (length outdoor_temps < i)%nat ->
  loop_body bp setpoints outdoor_temps st i = Raise IndexError.
Proof.
  intros Hi. unfold loop_body.
  rewrite getitem_None; [done|]. apply lookup_ge_None_2. lia.
Qed.

Lemma for_range_inv m : forall i st,
  (1 <= i)%nat -> (i + m <= length setpoints)%nat ->
  (i + m <= S (length outdoor_temps))%nat ->
  loop_inv bp setpoints outdoor_temps i st ->
  exists st',
    for_range (loop_body bp setpoints outdoor_temps) (seq i m) st = Ok st' /\
    loop_inv bp setpoints outdoor_temps (i + m) st'.
Proof.
  induction m as [|m IH]; intros i st Hi Hn Ho Hinv; cbn [seq for_range].
  - exists st. split; [done|]. by replace (i + 0)%nat with i by lia.
  - destruct (loop_body_inv i st) as (st1 & -> & Hinv1); [lia..|done|].
    cbn [bind]. replace (i + S m)%nat with (S i + m)%nat by lia.
    apply IH; [lia..|done].
Qed.

Lemma init_state_inv s0 :
  setpoints !! 0%nat = Some s0 ->
  exists st0, init_state setpoints = Ok st0 /\
              loop_inv bp setpoints outdoor_temps 1 st0.
Proof.
  intros Hs0. unfold init_state. rewrite (getitem_Some _ _ _ Hs0). cbn [bind].
  eexists; split; [reflexivity|].
  assert (0 < length setpoints)%nat by (by eapply lookup_lt_Some).
  repeat split; cbn [energy indoor_temp]; rewrite ?length_replicate; try done.
  - intros j Hj. replace j with 0%nat by lia.
    rewrite Hs0. by apply lookup_replicate_2.
  - intros j Hj. replace j with 0%nat by lia.
    rewrite (energy_vectorized_0 s0 Hs0). by apply lookup_replicate_2.
Qed.

Lemma loop_inv_final st :
  (length setpoints - 1 <= length outdoor_temps)%nat ->
  loop_inv bp setpoints outdoor_temps (length setpoints) st ->
  st = {| energy := energy_vectorized bp setpoints outdoor_temps;
          indoor_temp := setpoints |}.
Proof.
  intros Hout (Hle & Hli & Hind & Hen).
  destruct st as [e t]; cbn [energy indoor_temp] in *.
  f_equal; apply list_eq; intros j.
  - destruct (decide (j < length setpoints)%nat) as [Hj|Hj]; [by apply Hen|].
    rewrite !lookup_ge_None_2; [done| |lia].
    rewrite energy_vectorized_length; [lia|done].
  - destruct (decide (j < length setpoints)%nat) as [Hj|Hj]; [by apply Hind|].
    rewrite !lookup_ge_None_2; [done|lia..].
Qed.

(** The outcome of a run, for all inputs: the lengths alone decide
    whether there is one, and the parameters are never inspected. *)
Lemma simulate_spec :
  simulate bp setpoints outdoor_temps =
  if decide (1 <= length setpoints /\
             length setpoints - 1 <= length outdoor_temps)%nat
  then Ok {| energy := energy_vectorized bp setpoints outdoor_temps;
             indoor_temp := setpoints |}
  else Raise IndexError.
Proof.
  unfold simulate. case_decide as Hlen.
  - destruct Hlen as [Hn Hout].
    destruct (lookup_lt_is_Some_2 setpoints 0) as [s0 Hs0]; [lia|].
    destruct (init_state_inv s0 Hs0) as (st0 & -> & Hinv0). cbn [bind].
    destruct (for_range_inv (length setpoints - 1) 1 st0)
      as (st & -> & Hinv); [lia..|done|].
    f_equal. apply loop_inv_final; [done|].
    by replace (1 + (length setpoints - 1))%nat with (length setpoints)
      in Hinv by lia.
  - destruct (decide (1 <= length setpoints)%nat) as [Hn|Hn].
    + assert (Hshort : (length outdoor_temps < length setpoints - 1)%nat)
        by lia.
      destruct (lookup_lt_is_Some_2 setpoints 0) as [s0 Hs0]; [lia|].
      destruct (init_state_inv s0 Hs0) as (st0 & -> & Hinv0). cbn [bind].
      replace (length setpoints - 1)%nat
        with (length outdoor_temps
              + S (length setpoints - 2 - length outdoor_temps))%nat by lia.
      rewrite seq_app, for_range_app.
      destruct (for_range_inv (length outdoor_temps) 1 st0)
        as (st & -> & _); [lia..|done|].
      cbn [bind seq for_range]. by rewrite loop_body_raise by lia.
    + unfold init_state. rewrite getitem_None; [done|].
      apply lookup_ge_None_2. lia.
Qed.

Lemma calculate_spec :
  calculate_energy_consumption bp setpoints outdoor_temps =
  if decide (1 <= length setpoints /\
             length setpoints - 1 <= length outdoor_temps)%nat
  then Ok (energy_vectorized bp setpoints outdoor_temps)
  else Raise IndexError.
Proof.
  unfold calculate_energy_consumption. rewrite simulate_spec.
  by case_decide.
Qed.

End SimulatorFacts.

(** ** Exact arithmetic *)

Lemma gt0_Q_spec (x : Q) : gt0 x = true <-> (0 < x)%Q.
Proof.
  cbn [gt0 Q_arith]. rewrite Qlt_alt. by destruct (0 ?= x)%Q.
Qed.

Lemma gt0_Q_false (x : Q) : gt0 x = false <-> (x <= 0)%Q.
Proof.
  cbn [gt0 Q_arith]. rewrite Qle_alt, <- (Qcompare_antisym 0 x).
  destruct (0 ?= x)%Q; cbn; intuition congruence.
Qed.

Lemma step_energy_heating (bp : building_params Q) (a b o : Q) :
  (0 < b - (a + (o - a) * heat_loss_coefficient bp / heat_capacity bp
                 * time_step bp))%Q ->
  step_energy bp a b o =
  (heat_capacity bp
   * (b - (a + (o - a) * heat_loss_coefficient bp / heat_capacity bp
                 * time_step bp))
   / cop_heating bp)%Q.
Proof.
  intros Hd. unfold step_energy. cbv zeta.
  apply gt0_Q_spec in Hd. cbn [add sub mul div absf Q_arith] in *.
  by rewrite Hd.
Qed.

Lemma step_energy_cooling (bp : building_params Q) (a b o : Q) :
  (b - (a + (o - a) * heat_loss_coefficient bp / heat_capacity bp
             * time_step bp) <= 0)%Q ->
  step_energy bp a b o =
  (heat_capacity bp
   * Qabs (b - (a + (o - a) * heat_loss_coefficient bp / heat_capacity bp
                      * time_step bp))
   / cop_cooling bp)%Q.
Proof.
  intros Hd. unfold step_energy. cbv zeta.
  apply gt0_Q_false in Hd. cbn [add sub mul div absf Q_arith] in *.
  by rewrite Hd.
Qed.

Lemma step_energy_nonneg (bp : building_params Q) (a b o : Q) :
  (0 < heat_capacity bp)%Q -> (0 < cop_heating bp)%Q ->
  (0 < cop_cooling bp)%Q ->
  (0 <= step_energy bp a b o)%Q.
Proof.
  intros Hc Hh Hk. unfold step_energy. cbv zeta.
  cbn [add sub mul div absf Q_arith].
  set (delta := (b - (a + (o - a) * heat_loss_coefficient bp / heat_capacity bp
                       * time_step bp))%Q).
  destruct (gt0 delta) eqn:Hd.
  - apply gt0_Q_spec in Hd. apply Qle_shift_div_l; [done|].
    rewrite Qmult_0_l. apply Qmult_le_0_compat; by apply Qlt_le_weak.
  - apply Qle_shift_div_l; [done|].
    rewrite Qmult_0_l. apply Qmult_le_0_compat;
      [by apply Qlt_le_weak|apply Qabs_nonneg].
Qed.

(** ** The simulator's contract *)

(** C1.  With positive parameters and two sequences of the same length
    [n >= 1], the run returns the energy array of the recurrence:
    [energy[0] = 0], [indoor_temp[0] = setpoints[0]], and for every
    [1 <= i < n], with [drift], [indoor_natural] and [delta] computed from
    [outdoor_temps[i-1]] and [indoor_temp[i-1]], [energy[i]] is
    [heat_capacity * delta / cop_heating] when [delta > 0] and
    [heat_capacity * |delta| / cop_cooling] otherwise ([delta = 0]
    included), while [indoor_temp[i] = setpoints[i]]. *)
Theorem calculate_energy_consumption_recurrence
    (bp : building_params Q) (setpoints outdoor_temps : list Q) :
  (0 < heat_capacity bp)%Q -> (0 < heat_loss_coefficient bp)%Q ->
  (0 < cop_heating bp)%Q -> (0 < cop_cooling bp)%Q ->
  (0 < time_step bp)%Q ->
  (1 <= length setpoints)%nat ->
  length outdoor_temps = length setpoints ->
  exists st,
    simulate bp setpoints outdoor_temps = Ok st /\
    calculate_energy_consumption bp setpoints outdoor_temps = Ok (energy st) /\
    energy st !! 0%nat = Some 0%Q /\
    indoor_temp st !! 0%nat = setpoints !! 0%nat /\
    forall i, (1 <= i < length setpoints)%nat ->
      exists t_prev o_prev s,
        indoor_temp st !! (i - 1)%nat = Some t_prev /\
        outdoor_temps !! (i - 1)%nat = Some o_prev /\
        setpoints !! i = Some s /\
        indoor_temp st !! i = Some s /\
        let drift :=
          ((o_prev - t_prev) * heat_loss_coefficient bp / heat_capacity bp
           * time_step bp)%Q in
        let indoor_natural := (t_prev + drift)%Q in
        let delta := (s - indoor_natural)%Q in
        ((0 < delta)%Q ->
           energy st !! i
           = Some (heat_capacity bp * delta / cop_heating bp)%Q) /\
        ((delta <= 0)%Q ->
           energy st !! i
           = Some (heat_capacity bp * Qabs delta / cop_cooling bp)%Q).
Proof.
  intros _ _ _ _ _ Hn Hlen.
  pose proof (simulate_spec bp setpoints outdoor_temps) as Hsim.
  pose proof (calculate_spec bp setpoints outdoor_temps) as Hcalc.
  rewrite decide_True in Hsim by lia. rewrite decide_True in Hcalc by lia.
  destruct (lookup_lt_is_Some_2 setpoints 0) as [s0 Hs0]; [lia|].
  eexists; split; [exact Hsim|]. cbn [energy indoor_temp].
  split; [done|]. split; [exact (energy_vectorized_0 bp setpoints outdoor_temps s0 Hs0)|].
  split; [done|].
  intros i [Hi1 Hi2]. destruct i as [|k]; [lia|].
  replace (S k - 1)%nat with k by lia.
  destruct (lookup_lt_is_Some_2 outdoor_temps k) as [o Ho]; [lia|].
  destruct (lookup_lt_is_Some_2 setpoints k) as [a Ha]; [lia|].
  destruct (lookup_lt_is_Some_2 setpoints (S k)) as [b Hb]; [lia|].
  exists a, o, b. repeat split; try done.
  - intros Hd. rewrite (energy_vectorized_S _ _ _ k a b o) by done.
    by rewrite step_energy_heating.
  - intros Hd. rewrite (energy_vectorized_S _ _ _ k a b o) by done.
    by rewrite step_energy_cooling.
Qed.

Lemma calculate_energy_consumption_recurrence_witness :
  exists st,
    simulate scenario_params [21; 21; 20]%Q [10; 30; 10]%Q = Ok st /\
    energy st = [0; 220 # 30; 280 # 40]%Q /\
    indoor_temp st = [21; 21; 20]%Q.
Proof.
  destruct (calculate_energy_consumption_recurrence
              scenario_params [21; 21; 20]%Q [10; 30; 10]%Q)
    as (st & Hst & _); [reflexivity..|cbn; lia|reflexivity|].
  exists st. split; [exact Hst|].
  vm_compute in Hst. injection Hst as <-. split; reflexivity.
Defined.

(** C2.  The worked scenario: capacity 10, loss 2, COP 3 and 4, step 1,
    setpoints [21, 21], outdoor [10, 10].  In exact arithmetic the result
    is [0, 22/3]; in binary64 it is [0.0, 7.3333333333333313] (the float
    0x1.d555555555553p+2), within 2^-46, about 1.4e-14, of the float
    nearest to 22/3. *)
Theorem scenario_energy :
  (exists e1 : Q,
     calculate_energy_consumption scenario_params [21; 21]%Q [10; 10]%Q
     = Ok [0%Q; e1] /\ (e1 == 22 # 3)%Q) /\
  (exists e1 : float,
     calculate_energy_consumption scenario_params
       [21; 21]%float [10; 10]%float
     = Ok [0%float; e1] /\
     e1 = 0x1.d555555555553p+2%float /\
     PrimFloat.ltb (PrimFloat.abs (PrimFloat.sub e1 (lit (22 # 3))))
                   0x1p-46%float = true).
Proof.
  split.
  - exists (220 # 30)%Q. split; reflexivity.
  - exists 0x1.d555555555553p+2%float.
    repeat split; vm_compute; reflexivity.
Qed.

(** C5, as the code has it.  The function checks nothing: whatever the
    parameters, a run over a non-empty [setpoints] and at least
    [len(setpoints) - 1] outdoor temperatures returns an energy array as
    long as [setpoints]; otherwise ([setpoints] empty, or [outdoor_temps]
    more than one element shorter) it raises [IndexError] and returns
    nothing. *)
Theorem calculate_energy_consumption_outcome
    {F : Type} `{Arith F} (bp : building_params F)
    (setpoints outdoor_temps : list F) :
  (calculate_energy_consumption bp setpoints outdoor_temps = Raise IndexError
   /\ (length setpoints = 0 \/
       length outdoor_temps < length setpoints - 1)%nat)
  \/
  (exists e,
     calculate_energy_consumption bp setpoints outdoor_temps = Ok e /\
     length e = length setpoints /\
     (1 <= length setpoints)%nat /\
     (length setpoints - 1 <= length outdoor_temps)%nat).
Proof.
  rewrite calculate_spec. case_decide as Hlen.
  - right. eexists. split; [done|].
    split; [apply energy_vectorized_length; lia|done].
  - left. split; [done|lia].
Qed.

(** C5 fails as stated: a negative loss coefficient is accepted, and so
    are outdoor temperatures longer or one shorter than the setpoints. *)
Lemma calculate_energy_consumption_unvalidated :
  calculate_energy_consumption nonpositive_params [21; 21]%Q [10; 10]%Q
  = Ok [0; 220 # 40]%Q /\
  calculate_energy_consumption scenario_params [21; 21]%Q [10; 10; 10]%Q
  = Ok [0; 220 # 30]%Q /\
  calculate_energy_consumption scenario_params [21; 21]%Q [10]%Q
  = Ok [0; 220 # 30]%Q.
Proof. repeat split; reflexivity. Qed.

(** C6, as the code has it.  With no setpoint the first statement that
    reads [setpoints[0]] raises [IndexError], whatever the parameters and
    the outdoor temperatures. *)
Theorem calculate_energy_consumption_empty
    {F : Type} `{Arith F} (bp : building_params F) (outdoor_temps : list F) :
  calculate_energy_consumption bp [] outdoor_temps = Raise IndexError.
Proof. reflexivity. Qed.

(** C6 fails as stated: two empty sequences give an error, not an empty
    array. *)
Lemma calculate_energy_consumption_empty_raises :
  calculate_energy_consumption scenario_params ([] : list Q) []
  = Raise IndexError /\
  calculate_energy_consumption scenario_params ([] : list float) []
  = Raise IndexError.
Proof. split; reflexivity. Qed.

(** C7.  For sequences of the same length [n >= 1] the energy array has
    length [n]; when [n = 1] it is [[0.0]] and the loop runs over no
    index. *)
Theorem calculate_energy_consumption_length
    {F : Type} `{Arith F} (bp : building_params F)
    (setpoints outdoor_temps : list F) :
  (1 <= length setpoints)%nat ->
  length outdoor_temps = length setpoints ->
  (exists e,
     calculate_energy_consumption bp setpoints outdoor_temps = Ok e /\
     length e = length setpoints) /\
  (length setpoints = 1%nat ->
     calculate_energy_consumption bp setpoints outdoor_temps = Ok [lit 0] /\
     seq 1 (length setpoints - 1) = []).
Proof.
  intros Hn Hlen. rewrite calculate_spec, decide_True by lia. split.
  - eexists. split; [done|]. apply energy_vectorized_length. lia.
  - intros H1. destruct setpoints as [|s [|]]; cbn in H1; try lia. done.
Qed.

Lemma calculate_energy_consumption_length_witness :
  (exists e,
     calculate_energy_consumption scenario_params [21; 21; 20]%Q [10; 30; 10]%Q
     = Ok e /\ length e = 3%nat) /\
  calculate_energy_consumption scenario_params [21]%Q [10]%Q = Ok [0%Q].
Proof.
  split.
  - apply (calculate_energy_consumption_length
             scenario_params [21; 21; 20]%Q [10; 30; 10]%Q); cbn; lia.
  - destruct (calculate_energy_consumption_length
                scenario_params [21]%Q [10]%Q) as [_ Hone]; [cbn; lia..|].
    apply Hone. reflexivity.
Defined.

(** C9.  The loop equals the stateless map over adjacent elements: the
    run ends with [indoor_temp = setpoints] and
    [energy = energy_vectorized], whose element [0] is zero and whose
    element [i >= 1] is [step_energy] of [setpoints[i-1]], [setpoints[i]]
    and [outdoor_temps[i-1]]. *)
Theorem calculate_energy_consumption_vectorized
    {F : Type} `{Arith F} (bp : building_params F)
    (setpoints outdoor_temps : list F) :
  (1 <= length setpoints)%nat ->
  length outdoor_temps = length setpoints ->
  simulate bp setpoints outdoor_temps
  = Ok {| energy := energy_vectorized bp setpoints outdoor_temps;
          indoor_temp := setpoints |} /\
  calculate_energy_consumption bp setpoints outdoor_temps
  = Ok (energy_vectorized bp setpoints outdoor_temps) /\
  energy_vectorized bp setpoints outdoor_temps !! 0%nat = Some (lit 0) /\
  forall i, (1 <= i < length setpoints)%nat ->
    exists s_prev s o_prev,
      setpoints !! (i - 1)%nat = Some s_prev /\
      setpoints !! i = Some s /\
      outdoor_temps !! (i - 1)%nat = Some o_prev /\
      energy_vectorized bp setpoints outdoor_temps !! i
      = Some (step_energy bp s_prev s o_prev).
Proof.
  intros Hn Hlen. rewrite simulate_spec, calculate_spec, !decide_True by lia.
  split; [done|]. split; [done|].
  destruct (lookup_lt_is_Some_2 setpoints 0) as [s0 Hs0]; [lia|].
  split; [by apply (energy_vectorized_0 bp setpoints outdoor_temps s0)|].
  intros i [Hi1 Hi2]. destruct i as [|k]; [lia|].
  replace (S k - 1)%nat with k by lia.
  destruct (lookup_lt_is_Some_2 outdoor_temps k) as [o Ho]; [lia|].
  destruct (lookup_lt_is_Some_2 setpoints k) as [a Ha]; [lia|].
  destruct (lookup_lt_is_Some_2 setpoints (S k)) as [b Hb]; [lia|].
  exists a, b, o. repeat split; try done.
  by apply energy_vectorized_S.
Qed.

Lemma calculate_energy_consumption_vectorized_witness :
  calculate_energy_consumption scenario_params [21; 21; 20]%Q [10; 30; 10]%Q
  = Ok (energy_vectorized scenario_params [21; 21; 20]%Q [10; 30; 10]%Q) /\
  energy_vectorized scenario_params [21; 21; 20]%Q [10; 30; 10]%Q
  = [0; 220 # 30; 280 # 40]%Q.
Proof.
  split; [|reflexivity].
  apply (calculate_energy_consumption_vectorized
           scenario_params [21; 21; 20]%Q [10; 30; 10]%Q); cbn; lia.
Defined.

(** C10.  With positive capacity and positive COPs, in exact arithmetic,
    every element of the returned energy array is non-negative, the first
    one being zero. *)
Theorem calculate_energy_consumption_nonneg
    (bp : building_params Q) (setpoints outdoor_temps : list Q) :
  (0 < heat_capacity bp)%Q -> (0 < cop_heating bp)%Q ->
  (0 < cop_cooling bp)%Q ->
  (1 <= length setpoints)%nat ->
  (length setpoints - 1 <= length outdoor_temps)%nat ->
  exists e,
    calculate_energy_consumption bp setpoints outdoor_temps = Ok e /\
    e !! 0%nat = Some 0%Q /\
    forall i x, e !! i = Some x -> (0 <= x)%Q.
Proof.
  intros Hc Hh Hk Hn Hlen. rewrite calculate_spec, decide_True by lia.
  eexists. split; [done|].
  destruct (lookup_lt_is_Some_2 setpoints 0) as [s0 Hs0]; [lia|].
  pose proof (energy_vectorized_0 bp setpoints outdoor_temps s0 Hs0) as H0.
  split; [exact H0|].
  intros [|k] x Hx.
  - rewrite H0 in Hx. injection Hx as <-. apply Qle_refl.
  - apply energy_vectorized_S_inv in Hx as (a & b & o & _ & _ & _ & ->).
    by apply step_energy_nonneg.
Qed.

Lemma calculate_energy_consumption_nonneg_witness :
  exists e,
    calculate_energy_consumption scenario_params [21; 21; 20]%Q [10; 30; 10]%Q
    = Ok e /\
    e !! 0%nat = Some 0%Q /\
    forall i x, e !! i = Some x -> (0 <= x)%Q.
Proof.
  apply (calculate_energy_consumption_nonneg
           scenario_params [21; 21; 20]%Q [10; 30; 10]%Q);
    [reflexivity..|cbn; lia|cbn; lia].
Defined.

(** ** The scenario comparison *)

Section ComparatorFacts.
Context {F : Type} `{Arith F}.
Local Open Scope num_scope.

Lemma set_column_eq n (values : list F) :
  length values = n -> set_column n values = Ok values.
Proof. intros. unfold set_column. by rewrite decide_True. Qed.


Lemma lstm_adjusted_pad n (lstm_predictions : list F) first :
  lstm_predictions !! 0%nat = Some first ->
  (length lstm_predictions < n)%nat ->
  lstm_adjusted n lstm_predictions
  = Ok (replicate (n - length lstm_predictions) first ++ lstm_predictions).
Proof.
  intros Hfirst Hlt. unfold lstm_adjusted.
  by rewrite decide_True, (getitem_Some _ _ _ Hfirst) by done.
Qed.

Lemma lstm_adjusted_length n (lstm_predictions : list F) :
  (0 < length lstm_predictions)%nat ->
  exists adjusted,
    lstm_adjusted n lstm_predictions = Ok adjusted /\
    length adjusted = n.
Proof.
  intros Hpos.
  destruct (lookup_lt_is_Some_2 lstm_predictions 0) as [first Hfirst];
    [done|].
  destruct (decide (length lstm_predictions < n)%nat) as [Hlt|Hge].
  - rewrite (lstm_adjusted_pad n _ first) by done.
    eexists; split; [done|]. rewrite length_app, length_replicate. lia.
  - unfold lstm_adjusted. rewrite decide_False by done.
    eexists; split; [done|]. rewrite length_take. lia.
Qed.

Lemma proportional_energy_lookup (setpoint outdoor : list F) i s o :
  setpoint !! i = Some s -> outdoor !! i = Some o ->
  proportional_energy setpoint outdoor !! i
  = Some (absf (s - o) * lit (1 # 10)).
Proof.
  intros Hs Ho. unfold proportional_energy.
  rewrite lookup_zip_with, Hs. cbn [mbind option_bind]. by rewrite Ho.
Qed.

Lemma constant_energy_lookup (outdoor : list F) i o :
  outdoor !! i = Some o ->
  constant_energy outdoor !! i = Some (absf (lit 22 - o) * lit (1 # 10)).
Proof.
  intros Ho. unfold constant_energy. by rewrite list_lookup_fmap, Ho.
Qed.

(** What [simulate_control] stores when it gets that far. *)
Lemma simulate_control_ok (outdoor mlp_predictions lstm_predictions : list F)
    adjusted :
  length mlp_predictions = length outdoor ->
  lstm_adjusted (length outdoor) lstm_predictions = Ok adjusted ->
  length adjusted = length outdoor ->
  simulate_control outdoor mlp_predictions lstm_predictions
  = Ok {| outdoor_temp := outdoor;
          mlp_setpoint := mlp_predictions;
          lstm_setpoint := adjusted;
          mlp_energy := proportional_energy mlp_predictions outdoor;
          lstm_energy := proportional_energy adjusted outdoor;
          baseline_energy := constant_energy outdoor |}.
Proof.
  intros Hmlp Hadj Hlen. unfold simulate_control.
  rewrite set_column_eq by done. cbn [bind]. rewrite Hadj. cbn [bind].
  by rewrite set_column_eq by done.
Qed.

End ComparatorFacts.

(** C3, as the code has it.  For the MLP and LSTM setpoints and for the
    constant 22 degC baseline, the comparison charges each row
    [|setpoint - outdoor_temp| * 0.1] (the thermal simulator is not
    called), sums each column to a total, and reports
    [(1 - model_total / baseline_total) * 100] for each model. *)
Theorem simulate_control_energy
    {F : Type} `{Arith F} (outdoor mlp_predictions lstm_predictions : list F) :
  length mlp_predictions = length outdoor ->
  (0 < length lstm_predictions)%nat ->
  exists sd,
    simulate_control outdoor mlp_predictions lstm_predictions = Ok sd /\
    (forall i o, outdoor !! i = Some o ->
       exists m l,
         mlp_setpoint sd !! i = Some m /\
         lstm_setpoint sd !! i = Some l /\
         mlp_energy sd !! i = Some (absf (m - o) * lit (1 # 10))%num /\
         lstm_energy sd !! i = Some (absf (l - o) * lit (1 # 10))%num /\
         baseline_energy sd !! i
         = Some (absf (lit 22 - o) * lit (1 # 10))%num) /\
    length (mlp_energy sd) = length outdoor /\
    length (lstm_energy sd) = length outdoor /\
    length (baseline_energy sd) = length outdoor /\
    mlp_total (plot_results sd) = series_sum (mlp_energy sd) /\
    lstm_total (plot_results sd) = series_sum (lstm_energy sd) /\
    baseline_total (plot_results sd) = series_sum (baseline_energy sd) /\
    mlp_savings_pct (plot_results sd)
    = ((lit 1 - mlp_total (plot_results sd)
                / baseline_total (plot_results sd)) * lit 100)%num /\
    lstm_savings_pct (plot_results sd)
    = ((lit 1 - lstm_total (plot_results sd)
                / baseline_total (plot_results sd)) * lit 100)%num.
Proof.
  intros Hmlp Hpos.
  destruct (lstm_adjusted_length (length outdoor) lstm_predictions Hpos)
    as (adjusted & Hadj & Hlen).
  eexists. split; [by apply (simulate_control_ok _ _ _ adjusted)|].
  cbn [mlp_setpoint lstm_setpoint mlp_energy lstm_energy baseline_energy].
  split; [|repeat split].
  - intros i o Ho. pose proof (lookup_lt_Some _ _ _ Ho) as Hi.
    destruct (lookup_lt_is_Some_2 mlp_predictions i) as [m Hm]; [lia|].
    destruct (lookup_lt_is_Some_2 adjusted i) as [l Hl]; [lia|].
    exists m, l. repeat split; try done.
    + by apply proportional_energy_lookup.
    + by apply proportional_energy_lookup.
    + by apply constant_energy_lookup.
  - unfold proportional_energy. rewrite length_zip_with. lia.
  - unfold proportional_energy. rewrite length_zip_with. lia.
  - unfold constant_energy. by rewrite length_fmap.
Qed.

Lemma simulate_control_energy_witness :
  exists sd,
    simulate_control [10; 10; 10]%Q [21; 21; 21]%Q [20; 19]%Q = Ok sd /\
    mlp_energy sd = [11 # 10; 11 # 10; 11 # 10]%Q /\
    lstm_energy sd = [10 # 10; 10 # 10; 9 # 10]%Q /\
    baseline_energy sd = [12 # 10; 12 # 10; 12 # 10]%Q /\
    (mlp_savings_pct (plot_results sd) == 25 # 3)%Q.
Proof.
  destruct (simulate_control_energy [10; 10; 10]%Q [21; 21; 21]%Q [20; 19]%Q)
    as (sd & Hsd & _); [reflexivity|cbn; lia|].
  exists sd. split; [exact Hsd|].
  vm_compute in Hsd. injection Hsd as <-. repeat split; reflexivity.
Defined.

(** C3 fails as stated: on a window at 10 degC with every setpoint at 22
    the comparison charges 1.2 at row 0, where the thermal simulator
    charges nothing, whatever the building. *)
Lemma simulate_control_not_thermal :
  exists sd,
    simulate_control [10; 10]%Q [22; 22]%Q [22; 22]%Q = Ok sd /\
    mlp_energy sd = [12 # 10; 12 # 10]%Q /\
    baseline_energy sd = [12 # 10; 12 # 10]%Q /\
    ~ (exists bp,
         calculate_energy_consumption bp (mlp_setpoint sd) (outdoor_temp sd)
         = Ok (mlp_energy sd)) /\
    ~ (exists bp,
         calculate_energy_consumption bp [22; 22]%Q (outdoor_temp sd)
         = Ok (baseline_energy sd)).
Proof.
  eexists. split; [reflexivity|].
  cbn [mlp_energy baseline_energy mlp_setpoint outdoor_temp].
  repeat split; try reflexivity.
  - intros [bp Hbp]. rewrite calculate_spec in Hbp. discriminate Hbp.
  - intros [bp Hbp]. rewrite calculate_spec in Hbp. discriminate Hbp.
Qed.

(** ** The occupancy column *)

Section GeneratorFacts.
Context {F : Type} `{Arith F}.

(** The loop never leaves the array; it keeps the rows below [i] and
    gives row [i + j] the value of the [j]-th remaining timestamp and of
    the [j]-th next draw. *)
Lemma occupancy_loop_spec stamps : forall i (st : list F * rng F),
  (i + length stamps <= length st.1)%nat ->
  exists st',
    occupancy_loop i stamps st = Ok st' /\
    length st'.1 = length st.1 /\
    (forall k, (k < i)%nat -> st'.1 !! k = st.1 !! k) /\
    (forall j t, stamps !! j = Some t ->
       st'.1 !! (i + j)%nat
       = Some (occupancy_value t (draws st.2 (pos st.2 + j)))).
Proof.
  induction stamps as [|t0 stamps IH]; intros i st Hlen.
  - exists st. repeat split; try done.
  - cbn [length] in Hlen. cbn [occupancy_loop random].
    rewrite setitem_lt by lia. cbn [bind].
    destruct (IH (S i) (<[i:=occupancy_value t0 (draws st.2 (pos st.2))]> st.1,
                        {| draws := draws st.2; pos := S (pos st.2) |}))
      as (st' & -> & Hl & Hbefore & Hrows).
    { cbn [fst]. rewrite length_insert. lia. }
    cbn [fst snd draws pos] in *. rewrite length_insert in Hl.
    exists st'. repeat split; try done.
    + intros k Hk. rewrite Hbefore by lia.
      apply list_lookup_insert_ne. lia.
    + intros [|j] t Hj.
      * injection Hj as ->. rewrite Hbefore by lia.
        replace (i + 0)%nat with i by lia.
        replace (pos st.2 + 0)%nat with (pos st.2) by lia.
        apply list_lookup_insert_eq. lia.
      * change (stamps !! j = Some t) in Hj.
        replace (i + S j)%nat with (S i + j)%nat by lia.
        rewrite (Hrows j t Hj).
        by replace (S (pos st.2) + j)%nat with (pos st.2 + S j)%nat by lia.
Qed.

Lemma generate_occupancy_spec stamps (r : rng F) :
  exists st,
    generate_occupancy stamps r = Ok st /\
    length st.1 = length stamps /\
    forall i t, stamps !! i = Some t ->
      st.1 !! i = Some (occupancy_value t (draws r (pos r + i))).
Proof.
  unfold generate_occupancy.
  destruct (occupancy_loop_spec stamps 0
              (replicate (length stamps) (lit 0), r))
    as (st & Hst & Hl & _ & Hrows).
  { cbn [fst]. rewrite length_replicate. lia. }
  cbn [fst snd] in *. rewrite length_replicate in Hl.
  exists st. split; [done|]. split; [done|exact Hrows].
Qed.

End GeneratorFacts.

Lemma occupancy_value_range (t : timestamp) (u : Q) :
  (0 <= u)%Q -> (u < 1)%Q ->
  ((dayofweek t < 5)%nat -> (8 <= hour t < 18)%nat ->
     (7 # 10 <= occupancy_value t u)%Q /\ (occupancy_value t u < 1)%Q) /\
  ((dayofweek t < 5)%nat -> (7 <= hour t < 8 \/ 18 <= hour t < 19)%nat ->
     (3 # 10 <= occupancy_value t u)%Q /\ (occupancy_value t u < 6 # 10)%Q) /\
  ((dayofweek t < 5)%nat -> (hour t < 7 \/ 19 <= hour t)%nat ->
     (0 <= occupancy_value t u)%Q /\ (occupancy_value t u < 1 # 10)%Q) /\
  ((5 <= dayofweek t)%nat ->
     (0 <= occupancy_value t u)%Q /\ (occupancy_value t u < 2 # 10)%Q) /\
  (0 <= occupancy_value t u)%Q /\ (occupancy_value t u <= 1)%Q.
Proof.
  intros Hu0 Hu1. unfold occupancy_value.
  cbn [lit add mul Q_arith].
  repeat case_decide; repeat split; intros; try lia; lra.
Qed.

(** C8.  With every draw of the generator in [0, 1), the occupancy loop
    returns one value for each of the 8784 hourly samples, and each lies in
    the range of its calendar position: [0.7, 1.0) on weekdays from 8 to
    18, [0.3, 0.6) on weekdays from 7 to 8 and from 18 to 19, [0, 0.1) in
    the other weekday hours, [0, 0.2) at weekends; so it always lies in
    [0, 1]. *)
Theorem load_data_occupancy_range (r : rng Q) :
  (forall k, (0 <= draws r k)%Q /\ (draws r k < 1)%Q) ->
  exists occupancy,
    load_data_occupancy r = Ok occupancy /\
    length occupancy = length timestamps /\
    forall i t, timestamps !! i = Some t ->
      exists occ,
        occupancy !! i = Some occ /\
        ((dayofweek t < 5)%nat -> (8 <= hour t < 18)%nat ->
           (7 # 10 <= occ)%Q /\ (occ < 1)%Q) /\
        ((dayofweek t < 5)%nat ->
         (7 <= hour t < 8 \/ 18 <= hour t < 19)%nat ->
           (3 # 10 <= occ)%Q /\ (occ < 6 # 10)%Q) /\
        ((dayofweek t < 5)%nat -> (hour t < 7 \/ 19 <= hour t)%nat ->
           (0 <= occ)%Q /\ (occ < 1 # 10)%Q) /\
        ((5 <= dayofweek t)%nat -> (0 <= occ)%Q /\ (occ < 2 # 10)%Q) /\
        (0 <= occ)%Q /\ (occ <= 1)%Q.
Proof.
  intros Hdraws. unfold load_data_occupancy.
  destruct (generate_occupancy_spec timestamps r) as (st & -> & Hl & Hrows).
  cbn [bind]. exists st.1. split; [done|]. split; [done|].
  intros i t Hi. eexists. split; [by apply Hrows|].
  apply occupancy_value_range; apply Hdraws.
Qed.

Lemma load_data_occupancy_range_witness :
  exists occupancy,
    load_data_occupancy half_rng = Ok occupancy /\
    length occupancy = (366 * 24)%nat /\
    exists occ,
      occupancy !! 8%nat = Some occ /\ (7 # 10 <= occ)%Q /\ (occ < 1)%Q.
Proof.
  destruct (load_data_occupancy_range half_rng)
    as (occupancy & Hocc & Hlen & Hall).
  - intros k. split; [discriminate|reflexivity].
  - exists occupancy. split; [exact Hocc|].
    split; [rewrite Hlen; vm_compute; reflexivity|].
    destruct (Hall 8%nat {| dayofweek := 0; hour := 8 |})
      as (occ & Hrow & Hwork & _); [vm_compute; reflexivity|].
    exists occ. split; [exact Hrow|]. apply Hwork; cbn; lia.
Defined.


(** * Further properties *)

(** ** The simulator *)

Lemma energy_vectorized_take {F : Type} `{Arith F} (bp : building_params F)
    (setpoints outdoor_temps : list F) :
  energy_vectorized bp setpoints outdoor_temps
  = energy_vectorized bp setpoints
      (take (length setpoints - 1) outdoor_temps).
Proof.
  unfold energy_vectorized. destruct setpoints as [|s0 later]; [done|].
  f_equal. cbn [length]. replace (S (length later) - 1)%nat
    with (length later) by lia.
  symmetry. apply zip_with_take_r'. rewrite length_zip. cbn [length]. lia.
Qed.

(** X1.  The last outdoor temperature is never read: two runs whose
    outdoor temperatures agree on the first [len(setpoints) - 1] elements
    have the same outcome. *)
Theorem calculate_energy_consumption_last_outdoor_unused
    {F : Type} `{Arith F} (bp : building_params F)
    (setpoints outdoor_temps outdoor_temps' : list F) :
  take (length setpoints - 1) outdoor_temps
  = take (length setpoints - 1) outdoor_temps' ->
  calculate_energy_consumption bp setpoints outdoor_temps
  = calculate_energy_consumption bp setpoints outdoor_temps'.
Proof.
  intros Htake. rewrite !calculate_spec.
  rewrite (energy_vectorized_take bp setpoints outdoor_temps),
    (energy_vectorized_take bp setpoints outdoor_temps'), Htake.
  apply (f_equal length) in Htake. rewrite !length_take in Htake.
  repeat case_decide; try done; lia.
Qed.

Lemma calculate_energy_consumption_last_outdoor_unused_witness :
  calculate_energy_consumption scenario_params [21; 21; 20]%Q [10; 30; 10]%Q
  = calculate_energy_consumption scenario_params [21; 21; 20]%Q [10; 30; 99]%Q.
Proof.
  apply (calculate_energy_consumption_last_outdoor_unused
           scenario_params [21; 21; 20]%Q [10; 30; 10]%Q [10; 30; 99]%Q).
  reflexivity.
Defined.

Lemma natural_delta_held (bp : building_params Q) (s o : Q) :
  (0 < heat_capacity bp)%Q ->
  (s - (s + (o - s) * heat_loss_coefficient bp / heat_capacity bp
            * time_step bp)
   == (s - o) * heat_loss_coefficient bp * time_step bp / heat_capacity bp)%Q.
Proof. intros Hc. field. intros Hz. rewrite Hz in Hc. by apply Qlt_irrefl in Hc. Qed.

Lemma step_energy_held (bp : building_params Q) (s o : Q) :
  (0 < heat_capacity bp)%Q -> (0 < heat_loss_coefficient bp)%Q ->
  (0 < cop_heating bp)%Q -> (0 < cop_cooling bp)%Q ->
  (0 < time_step bp)%Q ->
  ((o < s)%Q ->
     (step_energy bp s s o
      == heat_loss_coefficient bp * (s - o) * time_step bp
         / cop_heating bp)%Q) /\
  ((s <= o)%Q ->
     (step_energy bp s s o
      == heat_loss_coefficient bp * (o - s) * time_step bp
         / cop_cooling bp)%Q).
Proof.
  intros Hc Hl Hh Hk Ht.
  pose proof (natural_delta_held bp s o Hc) as Hd.
  assert (Hfac : (0 < heat_loss_coefficient bp * time_step bp
                      / heat_capacity bp)%Q).
  { apply Qlt_shift_div_l; [done|]. rewrite Qmult_0_l.
    by apply Qmult_lt_0_compat. }
  assert (Hd' : (s - (s + (o - s) * heat_loss_coefficient bp / heat_capacity bp
                          * time_step bp)
                 == (s - o) * (heat_loss_coefficient bp * time_step bp
                               / heat_capacity bp))%Q).
  { rewrite Hd. field. intros Hz. rewrite Hz in Hc. by apply Qlt_irrefl in Hc. }
  assert (Hcz : ~ (heat_capacity bp == 0)%Q)
    by (intros Hz; rewrite Hz in Hc; by apply Qlt_irrefl in Hc).
  assert (Hhz : ~ (cop_heating bp == 0)%Q)
    by (intros Hz; rewrite Hz in Hh; by apply Qlt_irrefl in Hh).
  assert (Hkz : ~ (cop_cooling bp == 0)%Q)
    by (intros Hz; rewrite Hz in Hk; by apply Qlt_irrefl in Hk).
  split; intros Hso.
  - rewrite step_energy_heating.
    + rewrite Hd. by field.
    + rewrite Hd'. apply Qmult_lt_0_compat; [lra|done].
  - rewrite step_energy_cooling.
    + rewrite Qabs_neg.
      * rewrite Hd. by field.
      * rewrite Hd'. rewrite <- (Qmult_0_l (heat_loss_coefficient bp
                                  * time_step bp / heat_capacity bp)).
        apply Qmult_le_compat_r; [lra|by apply Qlt_le_weak].
    + rewrite Hd'. rewrite <- (Qmult_0_l (heat_loss_coefficient bp
                                  * time_step bp / heat_capacity bp)).
      apply Qmult_le_compat_r; [lra|by apply Qlt_le_weak].
Qed.

(** X2.  Holding a setpoint costs the heat exchanged with outdoors over
    the COP, whatever the heat capacity: with positive parameters, when
    [setpoints[i-1] = setpoints[i] = s] and [outdoor_temps[i-1] = o],
    [energy[i]] is [loss * (s - o) * step / cop_heating] if [o < s] and
    [loss * (o - s) * step / cop_cooling] otherwise (zero when [o = s]). *)
Theorem calculate_energy_consumption_held_setpoint
    (bp : building_params Q) (setpoints outdoor_temps : list Q)
    (i : nat) (s o : Q) :
  (0 < heat_capacity bp)%Q -> (0 < heat_loss_coefficient bp)%Q ->
  (0 < cop_heating bp)%Q -> (0 < cop_cooling bp)%Q ->
  (0 < time_step bp)%Q ->
  (length setpoints - 1 <= length outdoor_temps)%nat ->
  setpoints !! i = Some s -> setpoints !! S i = Some s ->
  outdoor_temps !! i = Some o ->
  exists e x,
    calculate_energy_consumption bp setpoints outdoor_temps = Ok e /\
    e !! S i = Some x /\
    ((o < s)%Q ->
       (x == heat_loss_coefficient bp * (s - o) * time_step bp
             / cop_heating bp)%Q) /\
    ((s <= o)%Q ->
       (x == heat_loss_coefficient bp * (o - s) * time_step bp
             / cop_cooling bp)%Q).
Proof.
  intros Hc Hl Hh Hk Ht Hlen Hs Hs' Ho.
  pose proof (lookup_lt_Some _ _ _ Hs') as Hn.
  rewrite calculate_spec, decide_True by lia.
  eexists. exists (step_energy bp s s o).
  split; [done|]. split; [by apply energy_vectorized_S|].
  by apply step_energy_held.
Qed.

Lemma calculate_energy_consumption_held_setpoint_witness :
  exists e x,
    calculate_energy_consumption scenario_params [21; 21]%Q [10; 10]%Q = Ok e /\
    e !! 1%nat = Some x /\ (x == 2 * (21 - 10) * 1 / 3)%Q.
Proof.
  destruct (calculate_energy_consumption_held_setpoint
              scenario_params [21; 21]%Q [10; 10]%Q 0 21%Q 10%Q)
    as (e & x & He & Hx & Hheat & _);
    [reflexivity..|cbn; lia|reflexivity|reflexivity|reflexivity|].
  exists e, x. split; [exact He|]. split; [exact Hx|].
  apply Hheat. reflexivity.
Defined.

Lemma gt0_Q_compat (x y : Q) : (x == y)%Q -> gt0 x = gt0 y.
Proof.
  intros Hxy. destruct (gt0 y) eqn:Hy.
  - apply gt0_Q_spec. apply gt0_Q_spec in Hy. by rewrite Hxy.
  - apply gt0_Q_false. apply gt0_Q_false in Hy. by rewrite Hxy.
Qed.

Lemma step_energy_shift (bp : building_params Q) (a b o c : Q) :
  (step_energy bp (a + c) (b + c) (o + c) == step_energy bp a b o)%Q.
Proof.
  unfold step_energy. cbv zeta. cbn [add sub mul div absf Q_arith].
  assert (Hd : (b + c - (a + c + (o + c - (a + c)) * heat_loss_coefficient bp
                                  / heat_capacity bp * time_step bp)
                == b - (a + (o - a) * heat_loss_coefficient bp
                            / heat_capacity bp * time_step bp))%Q)
    by (unfold Qdiv; ring).
  rewrite (gt0_Q_compat _ _ Hd).
  destruct (gt0 _); by rewrite Hd.
Qed.

(** X3.  Only temperature differences matter: with positive capacity and
    COPs, adding one offset to every setpoint and every outdoor
    temperature leaves every element of the energy array unchanged. *)
Theorem calculate_energy_consumption_shift
    (bp : building_params Q) (setpoints outdoor_temps : list Q) (c : Q) :
  (0 < heat_capacity bp)%Q -> (0 < cop_heating bp)%Q ->
  (0 < cop_cooling bp)%Q ->
  (1 <= length setpoints)%nat ->
  (length setpoints - 1 <= length outdoor_temps)%nat ->
  exists e e',
    calculate_energy_consumption bp setpoints outdoor_temps = Ok e /\
    calculate_energy_consumption bp
      ((fun t => t + c)%Q <$> setpoints) ((fun t => t + c)%Q <$> outdoor_temps)
    = Ok e' /\
    Forall2 Qeq e e'.
Proof.
  intros _ _ _ Hn Hlen. rewrite !calculate_spec.
  rewrite !length_fmap, !decide_True by lia.
  eexists _, _. split; [done|]. split; [done|].
  apply Forall2_same_length_lookup_2.
  - rewrite !energy_vectorized_length; rewrite ?length_fmap; done.
  - intros [|j] x y Hx Hy.
    + destruct (lookup_lt_is_Some_2 setpoints 0) as [s0 Hs0]; [lia|].
      rewrite (energy_vectorized_0 _ _ _ s0 Hs0) in Hx.
      rewrite (energy_vectorized_0 _ _ _ (s0 + c)%Q) in Hy
        by (by rewrite list_lookup_fmap, Hs0).
      by injection Hx as <-; injection Hy as <-.
    + apply energy_vectorized_S_inv in Hx as (a & b & o & Ha & Hb & Ho & ->).
      rewrite (energy_vectorized_S _ _ _ j (a + c)%Q (b + c)%Q (o + c)%Q) in Hy
        by (by rewrite list_lookup_fmap; (rewrite Ha || rewrite Hb || rewrite Ho)).
      injection Hy as <-. symmetry. apply step_energy_shift.
Qed.

Lemma calculate_energy_consumption_shift_witness :
  exists e e',
    calculate_energy_consumption scenario_params [21; 21; 20]%Q [10; 30; 10]%Q
    = Ok e /\
    calculate_energy_consumption scenario_params
      [294; 294; 293]%Q [283; 303; 283]%Q = Ok e' /\
    Forall2 Qeq e e'.
Proof.
  apply (calculate_energy_consumption_shift
           scenario_params [21; 21; 20]%Q [10; 30; 10]%Q 273%Q);
    [reflexivity..|cbn; lia|cbn; lia].
Defined.

(** ** The comparison *)

Section ComparatorOutcome.
Context {F : Type} `{Arith F}.

Lemma lstm_adjusted_spec n (lstm_predictions : list F) :
  lstm_adjusted n lstm_predictions =
  if decide (lstm_predictions = [] /\ 0 < n)%nat then Raise IndexError
  else Ok (if decide (length lstm_predictions < n)%nat
           then replicate (n - length lstm_predictions)
                  (default (lit 0) (lstm_predictions !! 0%nat))
                ++ lstm_predictions
           else take n lstm_predictions).
Proof.
  unfold lstm_adjusted. destruct lstm_predictions as [|p ps].
  - cbn [length]. destruct n as [|n].
    + rewrite decide_False by lia. rewrite decide_False by lia.
      by rewrite decide_False by lia.
    + rewrite decide_True by lia. by rewrite decide_True by (split; [done|lia]).
  - rewrite (decide_False (P := _ /\ _)) by (by intros [? _]).
    by case_decide.
Qed.

(** What a successful [simulate_control] stored. *)
Lemma simulate_control_inv (outdoor mlp_predictions lstm_predictions : list F)
    sd :
  simulate_control outdoor mlp_predictions lstm_predictions = Ok sd ->
  length mlp_predictions = length outdoor /\
  lstm_adjusted (length outdoor) lstm_predictions = Ok (lstm_setpoint sd) /\
  length (lstm_setpoint sd) = length outdoor /\
  outdoor_temp sd = outdoor /\
  mlp_setpoint sd = mlp_predictions /\
  mlp_energy sd = proportional_energy mlp_predictions outdoor /\
  lstm_energy sd = proportional_energy (lstm_setpoint sd) outdoor /\
  baseline_energy sd = constant_energy outdoor.
Proof.
  unfold simulate_control, set_column.
  case_decide as Hm; [|done]. cbn [bind].
  destruct (lstm_adjusted _ _) as [adjusted|]; [|done]. cbn [bind].
  case_decide as Ha; [|done]. cbn [bind].
  intros [= <-]. done.
Qed.


End ComparatorOutcome.


Lemma simulate_control_lstm_lookup
    {F : Type} `{Arith F} (outdoor mlp_predictions lstm_predictions : list F) :
  length mlp_predictions = length outdoor ->
  (0 < length lstm_predictions)%nat ->
  exists sd,
    simulate_control outdoor mlp_predictions lstm_predictions = Ok sd /\
    outdoor_temp sd = outdoor /\
    mlp_setpoint sd = mlp_predictions /\
    forall j, (j < length outdoor)%nat ->
      lstm_setpoint sd !! j
      = lstm_predictions
          !! (j - (length outdoor - length lstm_predictions))%nat.
Proof.
  intros Hm Hpos.
  destruct (lstm_adjusted_length (length outdoor) lstm_predictions Hpos)
    as (adjusted & Hadj & Hlen).
  eexists. split; [by apply (simulate_control_ok _ _ _ adjusted)|].
  cbn [lstm_setpoint outdoor_temp mlp_setpoint].
  split; [done|]. split; [done|]. intros j Hj.
  rewrite lstm_adjusted_spec in Hadj.
  rewrite decide_False in Hadj by (intros [-> _]; cbn in Hpos; lia).
  injection Hadj as <-. case_decide as Hlt.
  - destruct (lookup_lt_is_Some_2 lstm_predictions 0) as [first Hfirst];
      [done|].
    rewrite Hfirst. cbn [default].
    destruct (decide (j < length outdoor - length lstm_predictions)%nat)
      as [Hpad|Hpad].
    + rewrite lookup_app_l by (rewrite length_replicate; lia).
      rewrite lookup_replicate_2 by done.
      by replace (j - (length outdoor - length lstm_predictions))%nat
        with 0%nat by lia.
    + rewrite lookup_app_r by (rewrite length_replicate; lia).
      by rewrite length_replicate.
  - rewrite lookup_take_lt by done. f_equal. lia.
Qed.

(** X5.  Row [j] of the LSTM column holds prediction number
    [max (j - (n - len), 0)], where [n] is the number of rows and [len]
    the number of predictions: too few predictions are shifted to the end
    of the window and the first one fills the rows before; too many lose
    their tail. *)
Theorem simulate_control_lstm_row
    {F : Type} `{Arith F} (outdoor mlp_predictions lstm_predictions : list F) :
  length mlp_predictions = length outdoor ->
  (0 < length lstm_predictions)%nat ->
  exists sd,
    simulate_control outdoor mlp_predictions lstm_predictions = Ok sd /\
    forall j, (j < length outdoor)%nat ->
      lstm_setpoint sd !! j
      = lstm_predictions
          !! (j - (length outdoor - length lstm_predictions))%nat.
Proof.
  intros Hm Hpos.
  destruct (simulate_control_lstm_lookup outdoor mlp_predictions
              lstm_predictions Hm Hpos) as (sd & Hsd & _ & _ & Hrow).
  by exists sd.
Qed.

Lemma simulate_control_lstm_row_witness :
  exists sd,
    simulate_control [10; 10; 10]%Q [21; 21; 21]%Q [20; 19]%Q = Ok sd /\
    lstm_setpoint sd !! 0%nat = Some 20%Q /\
    lstm_setpoint sd !! 1%nat = Some 20%Q /\
    lstm_setpoint sd !! 2%nat = Some 19%Q.
Proof.
  destruct (simulate_control_lstm_row [10; 10; 10]%Q [21; 21; 21]%Q [20; 19]%Q)
    as (sd & Hsd & Hrow); [reflexivity|cbn; lia|].
  exists sd. split; [exact Hsd|].
  repeat split; (rewrite Hrow; [reflexivity|cbn; lia]).
Defined.

Lemma series_sum_acc (column : list Q) (a : Q) :
  (foldl Qplus a column == a + series_sum column)%Q.
Proof.
  unfold series_sum. cbn [add lit Q_arith].
  revert a. induction column as [|x column IH]; intros a; cbn [foldl].
  - ring.
  - rewrite (IH (a + x)%Q), (IH (0 + x)%Q). ring.
Qed.

Lemma series_sum_cons (x : Q) (column : list Q) :
  (series_sum (x :: column) == x + series_sum column)%Q.
Proof.
  unfold series_sum at 1. cbn [foldl add lit Q_arith].
  rewrite series_sum_acc. ring.
Qed.

Lemma series_sum_nonneg (column : list Q) :
  Forall (fun x => 0 <= x)%Q column -> (0 <= series_sum column)%Q.
Proof.
  induction 1 as [|x column Hx _ IH]; [done|].
  rewrite series_sum_cons. lra.
Qed.

Lemma series_sum_zero (column : list Q) :
  Forall (fun x => 0 <= x)%Q column ->
  (series_sum column == 0)%Q <-> Forall (fun x => x == 0)%Q column.
Proof.
  induction 1 as [|x column Hx Hall IH]; [done|].
  rewrite series_sum_cons, Forall_cons.
  pose proof (series_sum_nonneg column Hall). split.
  - intros Hsum. split; [lra|]. apply IH. lra.
  - intros [Hx0 Hrest]. apply IH in Hrest. lra.
Qed.

Lemma proportional_energy_nonneg (setpoint outdoor : list Q) :
  Forall (fun x => 0 <= x)%Q (proportional_energy setpoint outdoor).
Proof.
  unfold proportional_energy. revert outdoor.
  induction setpoint as [|s setpoint IH]; intros [|o outdoor];
    cbn [zip_with]; constructor; [|apply IH].
  cbn [absf sub mul lit Q_arith].
  pose proof (Qabs_nonneg (s - o)). nra.
Qed.

Lemma constant_energy_nonneg (outdoor : list Q) :
  Forall (fun x => 0 <= x)%Q (constant_energy outdoor).
Proof.
  unfold constant_energy. induction outdoor as [|o outdoor IH];
    constructor; [|apply IH].
  cbn [absf sub mul lit Q_arith].
  pose proof (Qabs_nonneg (22 - o)). nra.
Qed.

Lemma constant_energy_zero (outdoor : list Q) :
  Forall (fun x => x == 0)%Q (constant_energy outdoor)
  <-> Forall (fun o => o == 22)%Q outdoor.
Proof.
  unfold constant_energy. induction outdoor as [|o outdoor IH].
  - split; constructor.
  - rewrite fmap_cons, !Forall_cons, IH.
    cbn [absf sub mul lit Q_arith].
    assert ((Qabs (22 - o) * (1 # 10) == 0)%Q <-> (o == 22)%Q) as ->; [|done].
    split.
    + intros Hz. assert (Qabs (22 - o) == 0)%Q as Ha by lra.
      revert Ha.
      apply (Qabs_case (22 - o) (fun a => a == 0 -> o == 22)%Q); intros; lra.
    + intros ->. reflexivity.
Qed.

(** X6.  The comparison never reports a negative energy: every value of
    the three energy columns and every total of [plot_results] is
    non-negative, and the baseline total, the denominator of both
    percentages, is zero exactly when every outdoor temperature of the
    window is 22. *)
Theorem plot_results_nonneg
    (outdoor mlp_predictions lstm_predictions : list Q)
    (sd : simulation_data Q) :
  simulate_control outdoor mlp_predictions lstm_predictions = Ok sd ->
  Forall (fun x => 0 <= x)%Q (mlp_energy sd) /\
  Forall (fun x => 0 <= x)%Q (lstm_energy sd) /\
  Forall (fun x => 0 <= x)%Q (baseline_energy sd) /\
  (0 <= mlp_total (plot_results sd))%Q /\
  (0 <= lstm_total (plot_results sd))%Q /\
  (0 <= baseline_total (plot_results sd))%Q /\
  ((baseline_total (plot_results sd) == 0)%Q
   <-> Forall (fun o => o == 22)%Q outdoor).
Proof.
  intros Hsd.
  apply simulate_control_inv in Hsd as (_ & _ & _ & _ & _ & Hme & Hle & Hbe).
  cbn [plot_results mlp_total lstm_total baseline_total].
  rewrite Hme, Hle, Hbe.
  pose proof (proportional_energy_nonneg mlp_predictions outdoor) as Hm.
  pose proof (proportional_energy_nonneg (lstm_setpoint sd) outdoor) as Hl.
  pose proof (constant_energy_nonneg outdoor) as Hb.
  repeat split; try done.
  - by apply series_sum_nonneg.
  - by apply series_sum_nonneg.
  - by apply series_sum_nonneg.
  - intros Hz. apply constant_energy_zero. by apply series_sum_zero.
  - intros Hz. apply series_sum_zero; [done|]. by apply constant_energy_zero.
Qed.

Lemma plot_results_nonneg_witness :
  exists sd,
    simulate_control [22; 22]%Q [21; 23]%Q [20]%Q = Ok sd /\
    (0 <= mlp_total (plot_results sd))%Q /\
    (baseline_total (plot_results sd) == 0)%Q.
Proof.
  eexists. split; [reflexivity|].
  destruct (plot_results_nonneg [22; 22]%Q [21; 23]%Q [20]%Q _ eq_refl)
    as (_ & _ & _ & Hm & _ & _ & Hz).
  split; [exact Hm|]. apply Hz. repeat constructor.
Defined.

Lemma savings_pct_sign (model_total base_total : Q) :
  (0 <= model_total)%Q -> (0 < base_total)%Q ->
  (savings_pct model_total base_total <= 100)%Q /\
  ((savings_pct model_total base_total < 0)%Q
   <-> (base_total < model_total)%Q) /\
  ((savings_pct model_total base_total == 0)%Q
   <-> (model_total == base_total)%Q).
Proof.
  intros Hm Hb. unfold savings_pct. cbn [sub mul div lit Q_arith].
  assert (Hq : (model_total == model_total / base_total * base_total)%Q)
    by (field; lra).
  set (q := (model_total / base_total)%Q) in *.
  assert (0 <= q)%Q as Hq0.
  { destruct (Qlt_le_dec q 0) as [Hneg|]; [|done]. exfalso. nra. }
  repeat split; intros; nra.
Qed.

(** X7.  When some outdoor temperature of the window differs from 22 the
    baseline total is positive, and then each printed percentage is at
    most 100, is negative exactly when the model's total exceeds the
    baseline's, and is zero exactly when the two totals are equal. *)
Theorem plot_results_savings_sign
    (outdoor mlp_predictions lstm_predictions : list Q)
    (sd : simulation_data Q) :
  simulate_control outdoor mlp_predictions lstm_predictions = Ok sd ->
  ~ Forall (fun o => o == 22)%Q outdoor ->
  (0 < baseline_total (plot_results sd))%Q /\
  (mlp_savings_pct (plot_results sd) <= 100)%Q /\
  ((mlp_savings_pct (plot_results sd) < 0)%Q
   <-> (baseline_total (plot_results sd) < mlp_total (plot_results sd))%Q) /\
  ((mlp_savings_pct (plot_results sd) == 0)%Q
   <-> (mlp_total (plot_results sd) == baseline_total (plot_results sd))%Q) /\
  (lstm_savings_pct (plot_results sd) <= 100)%Q /\
  ((lstm_savings_pct (plot_results sd) < 0)%Q
   <-> (baseline_total (plot_results sd) < lstm_total (plot_results sd))%Q) /\
  ((lstm_savings_pct (plot_results sd) == 0)%Q
   <-> (lstm_total (plot_results sd) == baseline_total (plot_results sd))%Q).
Proof.
  intros Hsd Hnot.
  apply simulate_control_inv in Hsd as (_ & _ & _ & _ & _ & Hme & Hle & Hbe).
  cbn [plot_results mlp_total lstm_total baseline_total mlp_savings_pct
       lstm_savings_pct]. rewrite Hme, Hle, Hbe.
  pose proof (series_sum_nonneg _
                (proportional_energy_nonneg mlp_predictions outdoor)) as Hm.
  pose proof (series_sum_nonneg _
                (proportional_energy_nonneg (lstm_setpoint sd) outdoor)) as Hl.
  pose proof (series_sum_nonneg _ (constant_energy_nonneg outdoor)) as Hb.
  assert (Hpos : (0 < series_sum (constant_energy outdoor))%Q).
  { destruct (Qlt_le_dec 0 (series_sum (constant_energy outdoor)))
      as [|Hle0]; [done|].
    exfalso. apply Hnot. apply constant_energy_zero.
    apply series_sum_zero; [apply constant_energy_nonneg|]. lra. }
  split; [done|].
  destruct (savings_pct_sign _ _ Hm Hpos) as (? & ? & ?).
  destruct (savings_pct_sign _ _ Hl Hpos) as (? & ? & ?).
  done.
Qed.

Lemma plot_results_savings_sign_witness :
  exists sd,
    simulate_control [10; 10; 10]%Q [25; 25; 25]%Q [20; 19]%Q = Ok sd /\
    (mlp_savings_pct (plot_results sd) < 0)%Q /\
    (0 < lstm_savings_pct (plot_results sd))%Q /\
    (lstm_savings_pct (plot_results sd) <= 100)%Q.
Proof.
  eexists. split; [reflexivity|].
  destruct (plot_results_savings_sign
              [10; 10; 10]%Q [25; 25; 25]%Q [20; 19]%Q _ eq_refl)
    as (_ & _ & Hneg & _ & Hle & _ & _).
  - intros Hall. apply Forall_cons in Hall as [Habs _]. discriminate Habs.
  - split; [apply Hneg; reflexivity|]. split; [reflexivity|exact Hle].
Defined.

(** ** Windows of rows *)

Lemma length_slice {A} (a : list A) lo hi :
  length (slice a lo hi) = ((hi - lo) `min` (length a - lo))%nat.
Proof. unfold slice. by rewrite length_take, length_drop. Qed.

Lemma lookup_slice {A} (a : list A) lo hi j :
  (j < hi - lo)%nat -> slice a lo hi !! j = a !! (lo + j)%nat.
Proof. intros Hj. unfold slice. by rewrite lookup_take_lt, lookup_drop. Qed.

Lemma lookup_slice_ge {A} (a : list A) lo hi j :
  (hi - lo <= j)%nat -> slice a lo hi !! j = None.
Proof. intros Hj. unfold slice. by rewrite lookup_take_ge. Qed.

Lemma slice_slice {A} (a : list A) s e k L :
  (k + L <= e - s)%nat ->
  slice (slice a s e) k (k + L) = slice a (s + k) (s + k + L).
Proof.
  intros Hk. apply list_eq. intros j.
  destruct (decide (j < L)%nat) as [Hj|Hj].
  - rewrite !lookup_slice by lia. f_equal. lia.
  - by rewrite !lookup_slice_ge by lia.
Qed.

Lemma slice_from_nonneg {A} (a : list A) (start : Z) :
  (0 <= start)%Z -> slice_from a start = drop (Z.to_nat start) a.
Proof. intros Hs. unfold slice_from. by rewrite decide_False by lia. Qed.

Lemma foldl_snoc_fmap {A B} (f : B -> A) (l : list B) (acc : list A) :
  foldl (fun acc i => acc ++ [f i]) acc l = acc ++ (f <$> l).
Proof.
  revert acc. induction l as [|i l IH]; intros acc; cbn [foldl fmap list_fmap].
  - by rewrite app_nil_r.
  - rewrite IH. by rewrite <- app_assoc.
Qed.

Section WindowFacts.
Context {R F : Type}.

Lemma prediction_windows_fmap (X_scaled : list R) L :
  prediction_windows X_scaled L
  = (fun i => slice X_scaled i (i + L)) <$> seq 0 (S (length X_scaled) - L).
Proof. unfold prediction_windows. by rewrite foldl_snoc_fmap. Qed.

Lemma prediction_windows_lookup (X_scaled : list R) L i :
  (i + L <= length X_scaled)%nat ->
  prediction_windows X_scaled L !! i = Some (slice X_scaled i (i + L)).
Proof.
  intros Hi. rewrite prediction_windows_fmap, list_lookup_fmap.
  by rewrite lookup_seq_lt by lia.
Qed.

Lemma length_prediction_windows (X_scaled : list R) L :
  length (prediction_windows X_scaled L) = (S (length X_scaled) - L)%nat.
Proof. by rewrite prediction_windows_fmap, length_fmap, length_seq. Qed.

(** The training loop while the targets exist. *)
Lemma training_loop_ok (X_scaled : list R) (y_scaled : list F) L m :
  forall i acc,
    (i + m + L <= length y_scaled \/ m = 0)%nat ->
    for_range (append_training_pair X_scaled y_scaled L) (seq i m) acc
    = Ok (acc.1 ++ ((fun i => slice X_scaled i (i + L)) <$> seq i m),
          acc.2 ++ take m (drop (i + L) y_scaled)).
Proof.
  induction m as [|m IH]; intros i [Xs ys] Hlen; cbn [seq for_range].
  - cbn [fmap list_fmap take fst snd]. by rewrite !app_nil_r.
  - destruct Hlen as [Hlen|]; [|lia].
    destruct (lookup_lt_is_Some_2 y_scaled (i + L)) as [t Ht]; [lia|].
    unfold append_training_pair at 1. rewrite (getitem_Some _ _ _ Ht).
    cbn [bind fst snd]. rewrite IH by lia. cbn [fst snd fmap list_fmap].
    rewrite <- !app_assoc. cbn [app].
    rewrite (drop_S _ t (i + L)) by done. cbn [take].
    by replace (S (i + L)) with (S i + L)%nat by lia.
Qed.

Lemma training_loop_raise (X_scaled : list R) (y_scaled : list F) L i m acc :
  (length y_scaled <= i + L)%nat ->
  for_range (append_training_pair X_scaled y_scaled L) (seq i (S m)) acc
  = Raise IndexError.
Proof.
  intros Hi. cbn [seq for_range]. unfold append_training_pair.
  rewrite getitem_None; [done|]. by apply lookup_ge_None_2.
Qed.

End WindowFacts.

(** X8.  For the LSTM and a sequence length [L >= 1], [preprocess_data]
    pairs each of the [n - L] windows [X[i:i+L]] with the target
    [y[i+L]], the row after the window; it raises [IndexError] exactly
    when [y] is shorter than [X] and [L < n]. *)
Theorem preprocess_data_lstm
    {R F : Type} (X_scaled : list R) (y_scaled : list F) (k : nat) :
  preprocess_data LSTM X_scaled y_scaled (Some (S k)) =
  if decide (length y_scaled < length X_scaled /\ S k < length X_scaled)%nat
  then Raise IndexError
  else Ok (Sequences
             ((fun i => slice X_scaled i (i + S k))
                <$> seq 0 (length X_scaled - S k))
             (take (length X_scaled - S k) (drop (S k) y_scaled))).
Proof.
  unfold preprocess_data. case_decide as Hshort.
  - destruct Hshort as [Hy Hk].
    replace (length X_scaled - S k)%nat
      with ((length y_scaled - S k)
            + S (length X_scaled - S k - (length y_scaled - S k) - 1))%nat
      by lia.
    rewrite seq_app, for_range_app.
    rewrite training_loop_ok by lia. cbn [bind].
    by rewrite training_loop_raise by lia.
  - rewrite training_loop_ok by lia. done.
Qed.

(** X9.  [predict] hands the LSTM [n - L + 1] windows (none when
    [L > n]), and every one of them is full: window [i] is the [L]
    consecutive rows [X[i], ..., X[i+L-1]]. *)
Theorem prediction_windows_full
    {R : Type} (X_scaled : list R) (sequence_length : nat) :
  length (prediction_windows X_scaled sequence_length)
  = (S (length X_scaled) - sequence_length)%nat /\
  forall i w, prediction_windows X_scaled sequence_length !! i = Some w ->
    length w = sequence_length /\
    forall j, (j < sequence_length)%nat -> w !! j = X_scaled !! (i + j)%nat.
Proof.
  split; [apply length_prediction_windows|].
  intros i w Hw. pose proof (lookup_lt_Some _ _ _ Hw) as Hi.
  rewrite length_prediction_windows in Hi.
  rewrite prediction_windows_lookup in Hw by lia. injection Hw as <-.
  split.
  - rewrite length_slice. lia.
  - intros j Hj. apply lookup_slice. lia.
Qed.

(** X10.  For the LSTM with [1 <= L <= n] and one target per row,
    [evaluate] keeps every prediction and scores the prediction of window
    [i] against [y_test[i+L-1]], the target of the last row of the
    window; its truncation never applies. *)
Theorem evaluate_lstm_alignment
    {R F : Type} (lstm_model : list R -> F)
    (X_test : list R) (y_test : list F) (L : nat) :
  (1 <= L)%nat -> (L <= length X_test)%nat ->
  length y_test = length X_test ->
  exists actual predictions,
    evaluate LSTM (lstm_model <$> prediction_windows X_test L) y_test L
    = Ok (actual, predictions) /\
    length actual = (length X_test - L + 1)%nat /\
    length predictions = (length X_test - L + 1)%nat /\
    forall i, (i + L <= length X_test)%nat ->
      predictions !! i = Some (lstm_model (slice X_test i (i + L))) /\
      actual !! i = y_test !! (i + L - 1)%nat.
Proof.
  intros HL Hn Hy. unfold evaluate, evaluate_actual.
  rewrite slice_from_nonneg by lia.
  replace (Z.to_nat (Z.of_nat L - 1)) with (L - 1)%nat by lia.
  rewrite length_fmap, length_prediction_windows, length_drop.
  rewrite (decide_False (P := (_ < _)%nat)) by lia.
  rewrite length_drop, decide_True by lia.
  eexists _, _. split; [done|].
  rewrite length_drop, length_fmap, length_prediction_windows.
  split; [lia|]. split; [lia|].
  intros i Hi. split.
  - by rewrite list_lookup_fmap, prediction_windows_lookup.
  - rewrite lookup_drop. f_equal. lia.
Qed.

Lemma evaluate_lstm_alignment_witness :
  exists actual predictions,
    evaluate LSTM (length <$> prediction_windows [1; 2; 3; 4; 5]%nat 3)
      [10; 20; 30; 40; 50]%nat 3
    = Ok (actual, predictions) /\
    actual = [30; 40; 50]%nat /\ predictions = [3; 3; 3]%nat.
Proof.
  destruct (evaluate_lstm_alignment length [1; 2; 3; 4; 5]%nat
              [10; 20; 30; 40; 50]%nat 3)
    as (actual & predictions & Hev & _); [cbn; lia..|reflexivity|].
  exists actual, predictions. split; [exact Hev|].
  vm_compute in Hev. by injection Hev as <- <-.
Defined.

(** ** From the data frame to the columns *)

Lemma select_window_shape {A} (data : list A) (start_idx days : nat) :
  (start_idx < length data - 24 * days)%nat ->
  length (select_window data start_idx days) = (24 * days)%nat /\
  (forall j, (j < 24 * days)%nat ->
     select_window data start_idx days !! j = data !! (start_idx + j)%nat).
Proof.
  intros Hstart. unfold select_window. split.
  - rewrite length_slice. lia.
  - intros j Hj. apply lookup_slice. lia.
Qed.

(** X11.  For a start index in the range [randint] draws from,
    [0 <= start_idx < len(data) - 24 * days], the window has exactly
    [24 * days] rows, row [j] being row [start_idx + j] of the data, and
    it never reaches the last row of the data. *)
Theorem select_window_rows {A} (data : list A) (start_idx days : nat) :
  (start_idx < length data - 24 * days)%nat ->
  length (select_window data start_idx days) = (24 * days)%nat /\
  (forall j, (j < 24 * days)%nat ->
     select_window data start_idx days !! j = data !! (start_idx + j)%nat) /\
  (forall j, (length data - 1 <= start_idx + j)%nat ->
     select_window data start_idx days !! j = None).
Proof.
  intros Hstart. unfold select_window. split; [|split].
  - rewrite length_slice. lia.
  - intros j Hj. apply lookup_slice. lia.
  - intros j Hj. apply lookup_slice_ge. lia.
Qed.

Lemma select_window_rows_witness :
  select_window [0; 1; 2; 3; 4; 5; 6; 7; 8; 9; 10; 11; 12; 13; 14; 15; 16;
                 17; 18; 19; 20; 21; 22; 23; 24; 25]%nat 1 1
  !! 23%nat = Some 24%nat /\
  select_window [0; 1; 2; 3; 4; 5; 6; 7; 8; 9; 10; 11; 12; 13; 14; 15; 16;
                 17; 18; 19; 20; 21; 22; 23; 24; 25]%nat 1 1
  !! 24%nat = None.
Proof.
  destruct (select_window_rows
              [0; 1; 2; 3; 4; 5; 6; 7; 8; 9; 10; 11; 12; 13; 14; 15; 16;
               17; 18; 19; 20; 21; 22; 23; 24; 25]%nat 1 1)
    as (_ & Hrow & Hlast); [cbn; lia|].
  split; [rewrite Hrow; [reflexivity|lia]|apply Hlast; cbn; lia].
Defined.

(** X12.  [simulate_control] on a window of [days >= 1] days never fails,
    and its columns are aligned with the rows of the data: row [j] holds
    the outdoor temperature of data row [start_idx + j], the MLP
    prediction for that row, and the LSTM prediction for the 24 rows
    ending at that row, except that the first 23 rows all hold the
    prediction for the first 24 rows of the window. *)
Theorem simulate_control_from_rows
    {R F : Type} `{Arith F} (mlp_model : R -> F) (lstm_model : list R -> F)
    (outdoor_column : list F) (X : list R) (start_idx days : nat) :
  (1 <= days)%nat ->
  length outdoor_column = length X ->
  (start_idx < length X - 24 * days)%nat ->
  exists sd,
    simulate_control_from mlp_model lstm_model outdoor_column X start_idx days
    = Ok sd /\
    forall j, (j < 24 * days)%nat ->
      outdoor_temp sd !! j = outdoor_column !! (start_idx + j)%nat /\
      mlp_setpoint sd !! j = mlp_model <$> X !! (start_idx + j)%nat /\
      lstm_setpoint sd !! j
      = Some (lstm_model (slice X (start_idx + (j - 23))
                                  (start_idx + (j - 23) + 24))).
Proof.
  intros Hdays Hlen Hstart. unfold simulate_control_from.
  destruct (select_window_shape X start_idx days Hstart) as [HlX HrX].
  destruct (select_window_shape outdoor_column start_idx days) as [HlO HrO];
    [lia|].
  destruct (simulate_control_lstm_lookup
              (select_window outdoor_column start_idx days)
              (mlp_model <$> select_window X start_idx days)
              (lstm_model <$> prediction_windows
                                (select_window X start_idx days) 24))
    as (sd & -> & Hout & Hmlp & Hrow).
  { rewrite length_fmap. lia. }
  { rewrite length_fmap, length_prediction_windows. lia. }
  exists sd. split; [done|]. intros j Hj. rewrite Hout, Hmlp.
  split; [by apply HrO|]. split; [by rewrite list_lookup_fmap, HrX|].
  rewrite Hrow by lia.
  rewrite length_fmap, length_prediction_windows, HlO, HlX.
  replace (j - (24 * days - (S (24 * days) - 24)))%nat with (j - 23)%nat
    by lia.
  rewrite list_lookup_fmap, prediction_windows_lookup by lia.
  cbn [fmap option_fmap option_map]. do 2 f_equal.
  unfold select_window. rewrite slice_slice by lia. done.
Qed.

Lemma simulate_control_from_rows_witness :
  exists sd,
    simulate_control_from (fun x : Q => x) (fun w => default 0%Q (last w))
      (replicate 26 10%Q) (inject_Z <$> seqZ 0 26) 1 1 = Ok sd /\
    lstm_setpoint sd !! 0%nat = Some 24%Q /\
    lstm_setpoint sd !! 23%nat = Some 24%Q.
Proof.
  destruct (simulate_control_from_rows
              (fun x : Q => x) (fun w => default 0%Q (last w))
              (replicate 26 10%Q) (inject_Z <$> seqZ 0 26) 1 1)
    as (sd & Hsd & Hrow); [lia|reflexivity|vm_compute; lia|].
  exists sd. split; [exact Hsd|].
  destruct (Hrow 0%nat) as (_ & _ & H0); [lia|].
  destruct (Hrow 23%nat) as (_ & _ & H23); [lia|].
  split; [exact H0|exact H23].
Defined.

(** C4.  On a window of [days >= 1] days every model's setpoint column is
    its prediction sequence left-padded with its first prediction up to
    the window's length, by one rule for both models: the MLP predicts one
    value per row and gets no padding, the LSTM predicts 23 values fewer
    than the rows and gets 23 copies of its first prediction in front, so
    that both columns are exactly as long as the outdoor temperatures. *)
Theorem simulate_control_from_padding
    {R F : Type} `{Arith F} (mlp_model : R -> F) (lstm_model : list R -> F)
    (outdoor_column : list F) (X : list R) (start_idx days : nat) :
  (1 <= days)%nat ->
  length outdoor_column = length X ->
  (start_idx < length X - 24 * days)%nat ->
  exists sd,
    simulate_control_from mlp_model lstm_model outdoor_column X start_idx days
    = Ok sd /\
    length (outdoor_temp sd) = (24 * days)%nat /\
    length (model_predictions mlp_model lstm_model MLP
              (select_window X start_idx days)) = (24 * days)%nat /\
    length (model_predictions mlp_model lstm_model LSTM
              (select_window X start_idx days)) = (24 * days - 23)%nat /\
    forall m : model_type,
      exists first,
        model_predictions mlp_model lstm_model m
          (select_window X start_idx days) !! 0%nat = Some first /\
        model_setpoint m sd
        = replicate
            (length (outdoor_temp sd)
             - length (model_predictions mlp_model lstm_model m
                         (select_window X start_idx days)))
            first
          ++ model_predictions mlp_model lstm_model m
               (select_window X start_idx days) /\
        length (model_setpoint m sd) = length (outdoor_temp sd).
Proof.
  intros Hdays Hlen Hstart. unfold simulate_control_from.
  destruct (select_window_shape X start_idx days Hstart) as [HlX HrX].
  destruct (select_window_shape outdoor_column start_idx days) as [HlO HrO];
    [lia|].
  set (X_sim := select_window X start_idx days) in *.
  set (outdoor := select_window outdoor_column start_idx days) in *.
  assert (Hmlp : length (mlp_model <$> X_sim) = length outdoor)
    by (rewrite length_fmap; lia).
  assert (Hlstm : length (lstm_model <$> prediction_windows X_sim 24)
                  = (24 * days - 23)%nat)
    by (rewrite length_fmap, length_prediction_windows; lia).
  destruct (lookup_lt_is_Some_2 (lstm_model <$> prediction_windows X_sim 24) 0)
    as [first_lstm Hfirst_lstm]; [lia|].
  destruct (lookup_lt_is_Some_2 (mlp_model <$> X_sim) 0)
    as [first_mlp Hfirst_mlp]; [lia|].
  destruct (simulate_control_lstm_lookup outdoor (mlp_model <$> X_sim)
              (lstm_model <$> prediction_windows X_sim 24) Hmlp)
    as (sd & Hsd & Hout & Hmcol & _); [lia|].
  pose proof (simulate_control_inv _ _ _ _ Hsd)
    as (_ & Hadj & Hcollen & _).
  rewrite (lstm_adjusted_pad _ _ first_lstm) in Hadj by (done || lia).
  injection Hadj as Hcol. rewrite Hsd.
  exists sd. split; [done|]. rewrite Hout.
  split; [exact HlO|].
  split; [cbn [model_predictions]; by rewrite Hmlp|].
  split; [exact Hlstm|].
  intros [|]; cbn [model_predictions model_setpoint].
  - exists first_mlp. split; [done|]. rewrite Hmcol, Hmlp.
    by replace (length outdoor - length outdoor)%nat with 0%nat by lia.
  - exists first_lstm. split; [done|].
    split; [symmetry; exact Hcol|exact Hcollen].
Qed.

Lemma simulate_control_from_padding_witness :
  exists sd,
    simulate_control_from (fun x : Q => x) (fun w => default 0%Q (last w))
      (replicate 27 10%Q) (inject_Z <$> seqZ 0 27) 1 1 = Ok sd /\
    model_setpoint LSTM sd = replicate 23 24%Q ++ [24%Q] /\
    model_setpoint MLP sd = inject_Z <$> seqZ 1 24.
Proof.
  destruct (simulate_control_from_padding
              (fun x : Q => x) (fun w => default 0%Q (last w))
              (replicate 27 10%Q) (inject_Z <$> seqZ 0 27) 1 1)
    as (sd & Hsd & _ & _ & _ & Hall); [lia|reflexivity|vm_compute; lia|].
  exists sd. split; [exact Hsd|].
  vm_compute in Hsd. injection Hsd as <-. split; reflexivity.
Defined.

(** ** The occupancy generator *)

Lemma occupancy_loop_rng {F : Type} `{Arith F} stamps :
  forall i (st st' : list F * rng F),
    occupancy_loop i stamps st = Ok st' ->
    draws st'.2 = draws st.2 /\ pos st'.2 = (pos st.2 + length stamps)%nat.
Proof.
  induction stamps as [|t stamps IH]; intros i st st' Hloop.
  - injection Hloop as <-. cbn [length]. split; [done|lia].
  - cbn [occupancy_loop random] in Hloop.
    destruct (setitem _ _ _) as [occupancy|]; [|done]. cbn [bind] in Hloop.
    apply IH in Hloop as [Hd Hp]. cbn [snd draws pos length] in *.
    split; [done|lia].
Qed.

(** X13.  The occupancy loop takes exactly one draw per timestamp: it
    always succeeds, sample [i] is the value of timestamp [i] for the
    [i]-th draw after the starting position, and the generator is left
    [len(timestamps)] draws further. *)
Theorem generate_occupancy_draws
    {F : Type} `{Arith F} (stamps : list timestamp) (r : rng F) :
  exists st,
    generate_occupancy stamps r = Ok st /\
    length st.1 = length stamps /\
    draws st.2 = draws r /\
    pos st.2 = (pos r + length stamps)%nat /\
    forall i t, stamps !! i = Some t ->
      st.1 !! i = Some (occupancy_value t (draws r (pos r + i))).
Proof.
  destruct (generate_occupancy_spec stamps r) as (st & Hst & Hl & Hrows).
  exists st. split; [done|]. split; [done|].
  apply occupancy_loop_rng in Hst as [Hd Hp]. done.
Qed.

(** X14.  Occupancy is higher during working hours on weekdays: with
    every draw in [0, 1), each sample of a weekday hour from 8 to 18 is
    strictly above each sample of any other hour of the year. *)
Theorem load_data_occupancy_working_hours (r : rng Q) :
  (forall k, (0 <= draws r k)%Q /\ (draws r k < 1)%Q) ->
  exists occupancy,
    load_data_occupancy r = Ok occupancy /\
    forall i j ti tj,
      timestamps !! i = Some ti -> timestamps !! j = Some tj ->
      ((dayofweek ti < 5)%nat /\ (8 <= hour ti < 18)%nat) ->
      ~ ((dayofweek tj < 5)%nat /\ (8 <= hour tj < 18)%nat) ->
      exists oi oj,
        occupancy !! i = Some oi /\ occupancy !! j = Some oj /\
        (oj < oi)%Q.
Proof.
  intros Hdraws. unfold load_data_occupancy.
  destruct (generate_occupancy_spec timestamps r) as (st & -> & Hl & Hrows).
  cbn [bind]. exists st.1. split; [done|].
  intros i j ti tj Hi Hj [Hday Hhour] Hnot.
  eexists _, _. split; [by apply Hrows|]. split; [by apply Hrows|].
  destruct (Hdraws (pos r + i)%nat) as [Hi0 Hi1].
  destruct (Hdraws (pos r + j)%nat) as [Hj0 Hj1].
  destruct (occupancy_value_range ti _ Hi0 Hi1) as (Hwork & _).
  destruct (Hwork Hday Hhour) as [Hlow _].
  destruct (occupancy_value_range tj _ Hj0 Hj1)
    as (_ & Hshoulder & Hnight & Hweekend & _).
  destruct (decide (dayofweek tj < 5)%nat) as [Hwd|Hwe].
  - destruct (decide (7 <= hour tj < 8 \/ 18 <= hour tj < 19)%nat)
      as [Hsh|Hnsh].
    + destruct (Hshoulder Hwd Hsh). lra.
    + destruct (Hnight Hwd); [lia|]. lra.
  - destruct Hweekend; [lia|]. lra.
Qed.

Lemma load_data_occupancy_working_hours_witness :
  exists occupancy oi oj,
    load_data_occupancy half_rng = Ok occupancy /\
    occupancy !! 9%nat = Some oi /\ occupancy !! 129%nat = Some oj /\
    (oj < oi)%Q.
Proof.
  destruct (load_data_occupancy_working_hours half_rng)
    as (occupancy & Hocc & Hall).
  - intros k. split; [discriminate|reflexivity].
  - destruct (Hall 9%nat 129%nat {| dayofweek := 0; hour := 9 |}
                {| dayofweek := 5; hour := 9 |})
      as (oi & oj & Hi & Hj & Hlt);
      [vm_compute; reflexivity|vm_compute; reflexivity|cbn; lia|cbn; lia|].
    exists occupancy, oi, oj.
    split; [exact Hocc|]. split; [exact Hi|]. split; [exact Hj|exact Hlt].
Defined.

(** X15.  The setpoint label falls with occupancy: with every uniform
    draw in [0, 1), the label of sample [i] is the outdoor and noise terms
    [21 + 0.01 * (T - 20) + 0.2 * z] lowered by at most 0.5 and, on a
    weekday hour from 8 to 18, by more than 0.35, while at a weekend it is
    lowered by less than 0.1. *)
Theorem load_data_optimal_setpoint (r : rng Q) (outdoor noise : list Q) :
  (forall k, (0 <= draws r k)%Q /\ (draws r k < 1)%Q) ->
  length outdoor = length timestamps ->
  length noise = length timestamps ->
  exists occupancy,
    load_data_occupancy r = Ok occupancy /\
    length (optimal_setpoint outdoor occupancy noise) = length timestamps /\
    forall i t temp z,
      timestamps !! i = Some t -> outdoor !! i = Some temp ->
      noise !! i = Some z ->
      exists label,
        optimal_setpoint outdoor occupancy noise !! i = Some label /\
        (21 + (1 # 100) * (temp - 20) + (2 # 10) * z - (5 # 10) <= label)%Q /\
        (label <= 21 + (1 # 100) * (temp - 20) + (2 # 10) * z)%Q /\
        ((dayofweek t < 5)%nat -> (8 <= hour t < 18)%nat ->
           (label <= 21 + (1 # 100) * (temp - 20) + (2 # 10) * z
                     - (35 # 100))%Q) /\
        ((5 <= dayofweek t)%nat ->
           (21 + (1 # 100) * (temp - 20) + (2 # 10) * z - (1 # 10)
            < label)%Q).
Proof.
  intros Hdraws Ho Hz. unfold load_data_occupancy.
  destruct (generate_occupancy_spec timestamps r) as (st & -> & Hl & Hrows).
  cbn [bind]. exists st.1. split; [done|]. split.
  { unfold optimal_setpoint. rewrite length_zip_with, length_zip. lia. }
  intros i t temp z Hi Htemp Hzi.
  pose proof (Hrows i t Hi) as Hocc.
  destruct (Hdraws (pos r + i)%nat) as [Hu0 Hu1].
  destruct (occupancy_value_range t _ Hu0 Hu1)
    as (Hwork & _ & _ & Hweekend & Hge & Hle).
  eexists. split.
  { unfold optimal_setpoint.
    rewrite lookup_zip_with, (lookup_zip_with pair), Htemp.
    cbn [mbind option_bind]. rewrite Hocc. cbn [mbind option_bind].
    by rewrite Hzi. }
  unfold optimal_setpoint_at. cbn [fst snd add sub mul lit Q_arith].
  split; [lra|]. split; [lra|]. split.
  - intros Hd Hh. destruct (Hwork Hd Hh). lra.
  - intros Hd. destruct (Hweekend Hd). lra.
Qed.

Lemma load_data_optimal_setpoint_witness :
  exists occupancy label,
    load_data_occupancy half_rng = Ok occupancy /\
    optimal_setpoint (replicate (366 * 24) 20%Q) occupancy
                     (replicate (366 * 24) 0%Q) !! 9%nat = Some label /\
    (label <= 21 - (35 # 100))%Q.
Proof.
  destruct (load_data_optimal_setpoint half_rng
              (replicate (366 * 24) 20%Q) (replicate (366 * 24) 0%Q))
    as (occupancy & Hocc & _ & Hall).
  - intros k. split; [discriminate|reflexivity].
  - vm_compute; reflexivity.
  - vm_compute; reflexivity.
  - destruct (Hall 9%nat {| dayofweek := 0; hour := 9 |} 20%Q 0%Q)
      as (label & Hlabel & _ & _ & Hwork & _);
      [vm_compute; reflexivity..|].
    exists occupancy, label.
    split; [exact Hocc|]. split; [exact Hlabel|].
    assert (Hb : (label <= 21 + (1 # 100) * (20 - 20) + (2 # 10) * 0
                           - (35 # 100))%Q) by (apply Hwork; cbn; lia).
    lra.
Defined.
